(** * Command-dispatch contract of [kv export], [kv delete] and
      [snapshot restore]

    A shallow embedding of [command/kv_export.go] (which holds both the export
    and the delete command) and [command/snapshot_restore.go].

    Each [Run] method is a straight line of validations with early [return]s,
    calls to [c.Ui], and calls to collaborators that live outside these files
    (the [flag] package, [api.DefaultConfig], [api.NewClient], the KV and
    snapshot endpoints, [os.Open]).  The embedding keeps that shape:

    - a command is a computation in the monad [Cmd], which records the
      observable events in order and stops at the first [return];
    - what the collaborators answer is read from a [World], so that the
      commands stay executable on a concrete world;
    - Go strings and byte slices are [string]s (sequences of 8-bit
      characters), [uint64] values are [N], the exit code is a [Z]. *)

From Stdlib Require Import String Ascii List Bool NArith ZArith Lia DecimalString.
Import ListNotations.

Local Open Scope list_scope.
Local Open Scope string_scope.

(** ** Values shared by the three commands *)

(** A Go [error] is represented by the text [err.Error()] returns, which is
    what the ["%s"] verb of [fmt.Sprintf] prints. *)
Definition error := string.

(** [fmt.Sprintf("%d", n)] for a length. *)
Definition fmt_d (n : nat) : string := NilZero.string_of_uint (Nat.to_uint n).

(** The shared idiom of lines 72-74 and 208-210:
    [if len(key) > 0 && key[0] == '/' { key = key[1:] }]. *)
Definition stripLeadingSlash (key : string) : string :=
  match key with
  | String "/" rest => rest
  | _ => key
  end.

Module api.

(** Modelled from the spec: [api.Config] is declared outside these files;
    the fields are those a command assigns (target address, auth token,
    datacenter override). *)
Record Config := {
  Address : string;
  Token : string;
  Datacenter : string
}.

(** Modelled from the spec: [api.KVPair], with the fields the commands read
    or set (key, flags, value, and the version used by a checked delete). *)
Record KVPair := {
  Key : string;
  ModifyIndex : N;
  Flags : N;
  Value : string
}.

(** Modelled from the spec: [api.QueryOptions] as built at lines 88-91. *)
Record QueryOptions := {
  q_Datacenter : string;
  AllowStale : bool
}.

(** Modelled from the spec: [api.WriteOptions] as built at lines 248-250. *)
Record WriteOptions := {
  w_Datacenter : string
}.

(** Field assignments [conf.Address = v], [conf.Token = v] and
    [conf.Datacenter = v]. *)
Definition set_Address (conf : Config) (v : string) : Config :=
  {| Address := v; Token := Token conf; Datacenter := Datacenter conf |}.
Definition set_Token (conf : Config) (v : string) : Config :=
  {| Address := Address conf; Token := v; Datacenter := Datacenter conf |}.
Definition set_Datacenter (conf : Config) (v : string) : Config :=
  {| Address := Address conf; Token := Token conf; Datacenter := v |}.

(** A client handle remembers the configuration it was built from. *)
Record Client := {
  client_config : Config
}.

End api.

(** An open file: the path it was opened from and the bytes it streams. *)
Record File := {
  file_name : string;
  file_data : string
}.

(** ** Observable events *)

Inductive Event :=
| UiError (msg : string)
| UiInfo (msg : string)
| NewClient (conf : api.Config)
| KVList (key : string) (q : api.QueryOptions)
| KVDelete (key : string) (wo : api.WriteOptions)
| KVDeleteTree (prefix : string) (wo : api.WriteOptions)
| KVDeleteCAS (pair : api.KVPair) (wo : api.WriteOptions)
| OsOpen (file : string)
| SnapshotRestore (f : File)
| FileClose (f : File).

Definition is_store_call (e : Event) : bool :=
  match e with
  | KVList _ _ | KVDelete _ _ | KVDeleteTree _ _ | KVDeleteCAS _ _
  | SnapshotRestore _ => true
  | _ => false
  end.

Definition is_client_construction (e : Event) : bool :=
  match e with NewClient _ => true | _ => false end.

Definition is_file_open (e : Event) : bool :=
  match e with OsOpen _ => true | _ => false end.

Definition is_ui_error (e : Event) : bool :=
  match e with UiError _ => true | _ => false end.

Definition store_calls (t : list Event) : list Event := filter is_store_call t.

(** The key or prefix a KV call is made on. *)
Definition store_key (e : Event) : option string :=
  match e with
  | KVList key _ | KVDelete key _ | KVDeleteTree key _ => Some key
  | KVDeleteCAS kv _ => Some (api.Key kv)
  | _ => None
  end.

(** ** The command monad: a trace and either a [return] or a value *)

Inductive Step (A : Type) :=
| Exit (code : Z)
| Cont (a : A).
Arguments Exit {A} code.
Arguments Cont {A} a.

Definition Cmd (A : Type) : Type := list Event * Step A.

Definition ret {A} (a : A) : Cmd A := ([], Cont a).

(** [return code] of the enclosing [Run]. *)
Definition exit {A} (code : Z) : Cmd A := ([], Exit code).

Definition bind {A B} (m : Cmd A) (k : A -> Cmd B) : Cmd B :=
  match m with
  | (t, Exit c) => (t, Exit c)
  | (t, Cont a) => let (t', r) := k a in ((t ++ t')%list, r)
  end.

(** An unrecovered run-time panic ends the process with status 2. *)
Definition panic {A} : Cmd A := exit 2.

Definition emit (e : Event) : Cmd unit := ([e], Cont tt).

(** [if cond { body }] where [body] may return. *)
Definition when (cond : bool) (body : Cmd unit) : Cmd unit :=
  if cond then body else ret tt.

(** [defer]: the event happens when the rest of the function is left,
    whichever way. *)
Definition defer {A} (e : Event) (rest : Cmd A) : Cmd A :=
  let (t, r) := rest in ((t ++ [e])%list, r).

Declare Scope cmd_scope.
Delimit Scope cmd_scope with cmd.
Notation "x <- m ;; k" := (bind m (fun x => k))
  (at level 61, m at next level, right associativity) : cmd_scope.
Notation "m ;; k" := (bind m (fun _ => k))
  (at level 61, right associativity) : cmd_scope.
Local Open Scope cmd_scope.

(** A [Run] method always returns: its computation has no value to continue
    with, so running it gives the trace and the exit code. *)
Definition exec (m : Cmd Empty_set) : list Event * Z :=
  match m with
  | (t, Exit c) => (t, c)
  | (_, Cont a) => match a with end
  end.

Definition trace_of (m : Cmd Empty_set) : list Event := fst (exec m).
Definition exit_code (m : Cmd Empty_set) : Z := snd (exec m).

(** ** The collaborators *)

(** Parsed flags.  The [flag] package is outside these files: what [Parse]
    makes of the raw arguments is read from the world, as the values of the
    registered flags and the remaining positional arguments ([cmdFlags.Args]),
    or as an error.  On an error the package reports it by itself; that
    output is not part of the trace. *)
Record ExportFlags := {
  e_datacenter : string;
  e_token : string;
  e_stale : bool;
  e_httpAddr : string
}.

Record DeleteFlags := {
  d_datacenter : string;
  d_token : string;
  d_cas : bool;
  d_modifyIndex : N;
  d_recurse : bool;
  d_httpAddr : string
}.

Record RestoreFlags := {
  r_datacenter : string;
  r_token : string;
  r_httpAddr : string
}.

Record World := {
  parse_export : list string -> error + (ExportFlags * list string);
  parse_delete : list string -> error + (DeleteFlags * list string);
  parse_restore : list string -> error + (RestoreFlags * list string);
  DefaultConfig : api.Config;
  new_client : api.Config -> error + api.Client;
  kv_list : api.Client -> string -> api.QueryOptions -> error + list api.KVPair;
  kv_delete : api.Client -> string -> api.WriteOptions -> option error;
  kv_delete_tree : api.Client -> string -> api.WriteOptions -> option error;
  kv_delete_cas : api.Client -> api.KVPair -> api.WriteOptions -> bool * option error;
  os_open : string -> error + File;
  snapshot_restore : api.Client -> File -> option error
}.

Section Calls.

Variable w : World.

Definition Ui_Error (msg : string) : Cmd unit := emit (UiError msg).
Definition Ui_Info (msg : string) : Cmd unit := emit (UiInfo msg).

Definition api_NewClient (conf : api.Config) : Cmd (error + api.Client) :=
  emit (NewClient conf) ;; ret (new_client w conf).

Definition KV_List (c : api.Client) (key : string) (q : api.QueryOptions)
  : Cmd (error + list api.KVPair) :=
  emit (KVList key q) ;; ret (kv_list w c key q).

Definition KV_Delete (c : api.Client) (key : string) (wo : api.WriteOptions)
  : Cmd (option error) :=
  emit (KVDelete key wo) ;; ret (kv_delete w c key wo).

Definition KV_DeleteTree (c : api.Client) (prefix : string) (wo : api.WriteOptions)
  : Cmd (option error) :=
  emit (KVDeleteTree prefix wo) ;; ret (kv_delete_tree w c prefix wo).

Definition KV_DeleteCAS (c : api.Client) (pair : api.KVPair) (wo : api.WriteOptions)
  : Cmd (bool * option error) :=
  emit (KVDeleteCAS pair wo) ;; ret (kv_delete_cas w c pair wo).

Definition os_Open (file : string) : Cmd (error + File) :=
  emit (OsOpen file) ;; ret (os_open w file).

Definition Snapshot_Restore (c : api.Client) (f : File) : Cmd (option error) :=
  emit (SnapshotRestore f) ;; ret (snapshot_restore w c f).

End Calls.

(** ** [kv delete] *)

Module KVDeleteCommand.

Definition msg_too_many (n : nat) : string :=
  "Too many arguments (expected 1, got " ++ fmt_d n ++ ")".
Definition msg_missing_key : string := "Error! Missing KEY argument".
Definition msg_need_index : string := "Must specify -modify-index with -cas!".
Definition msg_index_without_cas : string :=
  "Cannot specify -modify-index without -cas!".
Definition msg_cas_and_recurse : string :=
  "Cannot specify both -cas and -recurse!".
Definition msg_connect (err : error) : string :=
  "Error connecting to Consul agent: " ++ err.
Definition msg_tree_failed (key : string) (err : error) : string :=
  "Error! Did not delete prefix " ++ key ++ ": " ++ err.
Definition msg_tree_ok (key : string) : string :=
  "Success! Deleted keys with prefix: " ++ key.
Definition msg_cas_error (key : string) (err : error) : string :=
  "Error! Did not delete key " ++ key ++ ": " ++ err.
Definition msg_cas_failed (key : string) : string :=
  "Error! Did not delete key " ++ key ++ ": CAS failed".
Definition msg_delete_failed (key : string) (err : error) : string :=
  "Error deleting key " ++ key ++ ": " ++ err.
Definition msg_deleted (key : string) : string :=
  "Success! Deleted key: " ++ key.

(** Lines 237-241: the configuration handed to [api.NewClient]. *)
Definition client_conf (dflt : api.Config) (fl : DeleteFlags) : api.Config :=
  let conf := dflt in
  let conf := api.set_Address conf (d_httpAddr fl) in
  if api.Token conf =? "" then api.set_Token conf (d_token fl) else conf.

(** Lines 252-287: the [switch] that picks the store operation. *)
Definition dispatch (w : World) (client : api.Client) (fl : DeleteFlags)
    (key : string) : Cmd Empty_set :=
  let wo := {| api.w_Datacenter := d_datacenter fl |} in
  if d_recurse fl then
    r <- KV_DeleteTree w client key wo ;;
    match r with
    | Some err => Ui_Error (msg_tree_failed key err) ;; exit 1
    | None => Ui_Info (msg_tree_ok key) ;; exit 0
    end
  else if d_cas fl then
    let pair := {| api.Key := key;
                   api.ModifyIndex := d_modifyIndex fl;
                   api.Flags := 0%N;
                   api.Value := "" |} in
    r <- KV_DeleteCAS w client pair wo ;;
    let (success, err) := r in
    match err with
    | Some err => Ui_Error (msg_cas_error key err) ;; exit 1
    | None =>
        if negb success then Ui_Error (msg_cas_failed key) ;; exit 1
        else Ui_Info (msg_deleted key) ;; exit 0
    end
  else
    r <- KV_Delete w client key wo ;;
    match r with
    | Some err => Ui_Error (msg_delete_failed key err) ;; exit 1
    | None => Ui_Info (msg_deleted key) ;; exit 0
    end.

(** Lines 191-287: everything after a successful [Parse]. *)
Definition run_parsed (w : World) (fl : DeleteFlags) (args : list string)
    : Cmd Empty_set :=
  key <- match args with
         | [] => ret ""
         | [a] => ret a
         | _ => Ui_Error (msg_too_many (length args)) ;; exit 1
         end ;;
  let key := stripLeadingSlash key in
  when ((key =? "") && negb (d_recurse fl))
    (Ui_Error msg_missing_key ;; exit 1) ;;
  when (d_cas fl && (d_modifyIndex fl =? 0)%N)
    (Ui_Error msg_need_index ;; exit 1) ;;
  when (negb (d_modifyIndex fl =? 0)%N && negb (d_cas fl))
    (Ui_Error msg_index_without_cas) ;;
  when (d_recurse fl && d_cas fl)
    (Ui_Error msg_cas_and_recurse ;; exit 1) ;;
  r <- api_NewClient w (client_conf (DefaultConfig w) fl) ;;
  match r with
  | inl err => Ui_Error (msg_connect err) ;; exit 1
  | inr client => dispatch w client fl key
  end.

Definition Run (w : World) (args : list string) : Cmd Empty_set :=
  match parse_delete w args with
  | inl _ => exit 1
  | inr (fl, args) => run_parsed w fl args
  end.

End KVDeleteCommand.

(** ** [encoding/base64]: the standard encoding with padding *)

Module base64.

Definition encodeStd : string :=
  "ABCDEFGHIJKLMNOPQRSTUVWXYZabcdefghijklmnopqrstuvwxyz0123456789+/".

Definition padChar : ascii := "="%char.

(** [enc.encode[i]]; the index is always masked to six bits. *)
Definition encode (i : N) : ascii :=
  match String.get (N.to_nat i) encodeStd with
  | Some c => c
  | None => padChar
  end.

Definition sextet (val : N) (shift : N) : ascii :=
  encode (N.land (N.shiftr val shift) 63).

(** [StdEncoding.EncodeToString]: full groups of three bytes, then the one
    or two bytes that remain, padded with '='. *)
Fixpoint EncodeToString (src : string) : string :=
  match src with
  | EmptyString => ""
  | String b0 EmptyString =>
      let val := N.shiftl (N_of_ascii b0) 16 in
      String (sextet val 18) (String (sextet val 12)
        (String padChar (String padChar "")))
  | String b0 (String b1 EmptyString) =>
      let val := N.lor (N.shiftl (N_of_ascii b0) 16)
                       (N.shiftl (N_of_ascii b1) 8) in
      String (sextet val 18) (String (sextet val 12)
        (String (sextet val 6) (String padChar "")))
  | String b0 (String b1 (String b2 rest)) =>
      let val := N.lor (N.shiftl (N_of_ascii b0) 16)
                   (N.lor (N.shiftl (N_of_ascii b1) 8) (N_of_ascii b2)) in
      String (sextet val 18) (String (sextet val 12)
        (String (sextet val 6) (String (sextet val 0)
          (EncodeToString rest))))
  end.

End base64.

(** ** [encoding/json]: the encoder as these commands use it *)

Module json.

(** The JSON documents a Go value of the exported type can marshal to. *)
#[local] Set Warnings "-register-all".
Inductive value :=
| Null
| Str (s : string)
| Num (n : N)
| Arr (items : list value)
| Obj (fields : list (string * value)).

Definition hex : string := "0123456789abcdef".

Definition hexDigit (i : N) : ascii :=
  match String.get (N.to_nat i) hex with
  | Some c => c
  | None => "0"%char
  end.

Definition backslash : ascii := ascii_of_N 92.
Definition dquote : ascii := ascii_of_N 34.

(** One byte below [utf8.RuneSelf], with [escapeHTML] set as [Marshal]
    does: printable bytes other than the quote, the backslash and
    [<], [>], [&] go through; the others are escaped. *)
Definition escapeByte (b : ascii) : string :=
  let n := N_of_ascii b in
  if ((32 <=? n) && negb (n =? 92) && negb (n =? 34)
      && negb (n =? 60) && negb (n =? 62) && negb (n =? 38))%N
  then String b ""
  else if ((n =? 92) || (n =? 34))%N then String backslash (String b "")
  else if (n =? 10)%N then String backslash "n"
  else if (n =? 13)%N then String backslash "r"
  else if (n =? 9)%N then String backslash "t"
  else String backslash
         ("u00" ++ String (hexDigit (N.shiftr n 4))
                     (String (hexDigit (N.land n 15)) "")).

Definition between (lo hi : N) (b : ascii) : bool :=
  ((lo <=? N_of_ascii b) && (N_of_ascii b <=? hi))%N.

Definition cont (b : ascii) : bool := between 128 191 b.

(** [utf8.DecodeRuneInString] on a string whose first byte is [b0 >= 0x80]:
    the number of bytes of the rune that starts there, or [1] with
    [valid = false] when the bytes are not a well-formed encoding. *)
Definition decodeSize (b0 : ascii) (rest : string) : bool * nat :=
  let n := N_of_ascii b0 in
  let two := between 194 223 b0 in
  let three := between 224 239 b0 in
  let four := between 240 244 b0 in
  match rest with
  | String b1 rest1 =>
      if two then (if cont b1 then (true, 2%nat) else (false, 1%nat))
      else if three then
        let ok1 := if (n =? 224)%N then between 160 191 b1
                   else if (n =? 237)%N then between 128 159 b1
                   else cont b1 in
        match rest1 with
        | String b2 _ => if ok1 && cont b2 then (true, 3%nat) else (false, 1%nat)
        | EmptyString => (false, 1%nat)
        end
      else if four then
        let ok1 := if (n =? 240)%N then between 144 191 b1
                   else if (n =? 244)%N then between 128 143 b1
                   else cont b1 in
        match rest1 with
        | String b2 (String b3 _) =>
            if ok1 && cont b2 && cont b3 then (true, 4%nat) else (false, 1%nat)
        | _ => (false, 1%nat)
        end
      else (false, 1%nat)
  | EmptyString => (false, 1%nat)
  end.

(** Is the three-byte rune starting with [b0] U+2028 or U+2029
    (bytes E2 80 A8 and E2 80 A9)?  Gives its last hexadecimal digit. *)
Definition lineSeparator (b0 : ascii) (rest : string) : option ascii :=
  match rest with
  | String b1 (String b2 _) =>
      if ((N_of_ascii b0 =? 226) && (N_of_ascii b1 =? 128))%N then
        if (N_of_ascii b2 =? 168)%N then Some "8"%char
        else if (N_of_ascii b2 =? 169)%N then Some "9"%char
        else None
      else None
  | _ => None
  end.

(** The body of [encodeState.string] between the quotes.  [skip] counts
    the bytes left of a rune already decoded, which are copied ([keep]) or
    were replaced by an escape. *)
Fixpoint encodeBytes (skip : nat) (keep : bool) (s : string) : string :=
  match s with
  | EmptyString => ""
  | String b rest =>
      match skip with
      | S k => if keep then String b (encodeBytes k keep rest)
               else encodeBytes k keep rest
      | O =>
          if (N_of_ascii b <? 128)%N then escapeByte b ++ encodeBytes 0 true rest
          else
            match decodeSize b rest with
            | (false, _) =>
                String backslash "ufffd" ++ encodeBytes 0 true rest
            | (true, size) =>
                match lineSeparator b rest with
                | Some d =>
                    String backslash ("u202" ++ String d "")
                      ++ encodeBytes (size - 1) false rest
                | None => String b (encodeBytes (size - 1) true rest)
                end
            end
      end
  end.

Definition encodeString (s : string) : string :=
  String dquote (encodeBytes 0 true s ++ String dquote "").

Fixpoint repeatString (s : string) (n : nat) : string :=
  match n with
  | O => ""
  | S n' => s ++ repeatString s n'
  end.

Section Indent.

Variables pfx indent : string.

Definition newline (depth : nat) : string :=
  String (ascii_of_N 10) (pfx ++ repeatString indent depth).

(** [Marshal] followed by [Indent]: an element per line, one more
    [indent] per level of nesting, a space after each colon, and nothing
    between the brackets of an empty array or object. *)
Fixpoint render (depth : nat) (v : value) : string :=
  match v with
  | Null => "null"
  | Str s => encodeString s
  | Num n => NilZero.string_of_uint (N.to_uint n)
  | Arr [] => "[]"
  | Arr (x :: xs) =>
      "[" ++ newline (S depth) ++ render (S depth) x
      ++ (fix more (l : list value) : string :=
            match l with
            | [] => ""
            | y :: l' => "," ++ newline (S depth) ++ render (S depth) y ++ more l'
            end) xs
      ++ newline depth ++ "]"
  | Obj [] => "{}"
  | Obj ((k, x) :: fs) =>
      "{" ++ newline (S depth) ++ encodeString k ++ ": " ++ render (S depth) x
      ++ (fix more (l : list (string * value)) : string :=
            match l with
            | [] => ""
            | (k', y) :: l' =>
                "," ++ newline (S depth) ++ encodeString k' ++ ": "
                ++ render (S depth) y ++ more l'
            end) fs
      ++ newline depth ++ "}"
  end.

End Indent.

End json.


(** ** [kv export] *)

Record kvExportEntry := {
  Key : string;
  Flags : N;
  Value : string
}.

Definition toExportEntry (pair : api.KVPair) : kvExportEntry :=
  {| Key := api.Key pair;
     Flags := api.Flags pair;
     Value := base64.EncodeToString (api.Value pair) |}.

Module KVExportCommand.

Definition msg_too_many (n : nat) : string :=
  "Too many arguments (expected 1, got " ++ fmt_d n ++ ")".
Definition msg_connect (err : error) : string :=
  "Error connecting to Consul agent: " ++ err.
Definition msg_query (err : error) : string :=
  "Error querying Consul agent: " ++ err.
Definition msg_export (err : error) : string :=
  "Error exporting KV data: " ++ err.

(** Lines 77-81: the configuration handed to [api.NewClient]. *)
Definition client_conf (dflt : api.Config) (fl : ExportFlags) : api.Config :=
  let conf := dflt in
  let conf := api.set_Address conf (e_httpAddr fl) in
  if negb (e_token fl =? "") then api.set_Token conf (e_token fl) else conf.

(** [exported[i] = v] on a slice of pointers; [None] is the run-time panic
    of an index that is not below the length. *)
Fixpoint assign (exported : list (option kvExportEntry)) (i : nat)
    (v : kvExportEntry) : option (list (option kvExportEntry)) :=
  match exported, i with
  | [], _ => None
  | _ :: tl, O => Some (Some v :: tl)
  | hd :: tl, S i' => option_map (cons hd) (assign tl i' v)
  end.

(** Lines 98-100: [for i, pair := range pairs], from index [i] on. *)
Fixpoint range_loop (i : nat) (pairs : list api.KVPair)
    (exported : list (option kvExportEntry))
    : option (list (option kvExportEntry)) :=
  match pairs with
  | [] => Some exported
  | p :: rest =>
      match assign exported i (toExportEntry p) with
      | Some exported' => range_loop (S i) rest exported'
      | None => None
      end
  end.

(** Lines 97-100: [make([]*kvExportEntry, len(pairs))] holds nil pointers
    until the loop has stored an entry in each place. *)
Definition export_entries (pairs : list api.KVPair)
    : option (list (option kvExportEntry)) :=
  range_loop 0 pairs (repeat None (length pairs)).

(** What [encoding/json] makes of the exported slice: an array, with
    [null] for a nil pointer and, for an entry, an object whose members are
    the struct fields under the names of their tags, in declaration order. *)
Definition entry_json (e : kvExportEntry) : json.value :=
  json.Obj [("key", json.Str (Key e));
            ("flags", json.Num (Flags e));
            ("value", json.Str (Value e))].

Definition pointer_json (p : option kvExportEntry) : json.value :=
  match p with
  | Some e => entry_json e
  | None => json.Null
  end.

Definition exported_json (exported : list (option kvExportEntry)) : json.value :=
  json.Arr (map pointer_json exported).

Definition tab : string := String (ascii_of_N 9) "".

(** [json.MarshalIndent(exported, prefix, indent)].  Strings, unsigned
    integers, structs and slices of them always marshal, so there is no
    error result for this type. *)
Definition MarshalIndent (exported : list (option kvExportEntry))
    (pfx indent : string) : error + string :=
  inr (json.render pfx indent 0 (exported_json exported)).

(** Lines 56-110: everything after a successful [Parse]. *)
Definition run_parsed (w : World) (fl : ExportFlags) (args : list string)
    : Cmd Empty_set :=
  key <- match args with
         | [] => ret ""
         | [a] => ret a
         | _ => Ui_Error (msg_too_many (length args)) ;; exit 1
         end ;;
  let key := stripLeadingSlash key in
  r <- api_NewClient w (client_conf (DefaultConfig w) fl) ;;
  match r with
  | inl err => Ui_Error (msg_connect err) ;; exit 1
  | inr client =>
      r <- KV_List w client key
             {| api.q_Datacenter := e_datacenter fl;
                api.AllowStale := e_stale fl |} ;;
      match r with
      | inl err => Ui_Error (msg_query err) ;; exit 1
      | inr pairs =>
          match export_entries pairs with
          | None => panic
          | Some exported =>
              match MarshalIndent exported "" tab with
              | inl err => Ui_Error (msg_export err) ;; exit 1
              | inr marshaled => Ui_Info marshaled ;; exit 0
              end
          end
      end
  end.

Definition Run (w : World) (args : list string) : Cmd Empty_set :=
  match parse_export w args with
  | inl _ => exit 1
  | inr (fl, args) => run_parsed w fl args
  end.

End KVExportCommand.

(** ** [snapshot restore] *)

Module SnapshotRestoreCommand.

Definition msg_missing_file : string := "Missing FILE argument".
Definition msg_too_many (n : nat) : string :=
  "Too many arguments (expected 1, got " ++ fmt_d n ++ ")".
Definition msg_connect (err : error) : string :=
  "Error connecting to Consul agent: " ++ err.
Definition msg_open (err : error) : string :=
  "Error opening snapshot file: " ++ err.
Definition msg_restore (err : error) : string :=
  "Error restoring snapshot: " ++ err.
Definition msg_restored : string := "Restored snapshot".

(** Lines 71-76: the configuration handed to [api.NewClient]. *)
Definition client_conf (dflt : api.Config) (fl : RestoreFlags) : api.Config :=
  let conf := dflt in
  let conf := api.set_Datacenter conf (r_datacenter fl) in
  let conf := api.set_Address conf (r_httpAddr fl) in
  if negb (r_token fl =? "") then api.set_Token conf (r_token fl) else conf.

(** Lines 56-99: everything after a successful [Parse]. *)
Definition run_parsed (w : World) (fl : RestoreFlags) (args : list string)
    : Cmd Empty_set :=
  file <- match args with
          | [] => Ui_Error msg_missing_file ;; exit 1
          | [a] => ret a
          | _ => Ui_Error (msg_too_many (length args)) ;; exit 1
          end ;;
  r <- api_NewClient w (client_conf (DefaultConfig w) fl) ;;
  match r with
  | inl err => Ui_Error (msg_connect err) ;; exit 1
  | inr client =>
      r <- os_Open w file ;;
      match r with
      | inl err => Ui_Error (msg_open err) ;; exit 1
      | inr f =>
          defer (FileClose f)
            (r <- Snapshot_Restore w client f ;;
             match r with
             | Some err => Ui_Error (msg_restore err) ;; exit 1
             | None => Ui_Info msg_restored ;; exit 0
             end)
      end
  end.

Definition Run (w : World) (args : list string) : Cmd Empty_set :=
  match parse_restore w args with
  | inl _ => exit 1
  | inr (fl, args) => run_parsed w fl args
  end.

End SnapshotRestoreCommand.

(** ** Sample worlds, on which the commands are run below *)

Module Sample.

Definition default_config : api.Config :=
  {| api.Address := "127.0.0.1:8500";
     api.Token := "from-env";
     api.Datacenter := "" |}.

Definition delete_flags (cas : bool) (modifyIndex : N) (recurse : bool)
    : DeleteFlags :=
  {| d_datacenter := "dc1";
     d_token := "from-flag";
     d_cas := cas;
     d_modifyIndex := modifyIndex;
     d_recurse := recurse;
     d_httpAddr := "127.0.0.1:8500" |}.

Definition export_flags : ExportFlags :=
  {| e_datacenter := "dc1";
     e_token := "from-flag";
     e_stale := false;
     e_httpAddr := "127.0.0.1:8500" |}.

Definition restore_flags : RestoreFlags :=
  {| r_datacenter := "dc1";
     r_token := "";
     r_httpAddr := "127.0.0.1:8500" |}.

Definition pairs : list api.KVPair :=
  [ {| api.Key := "a"; api.ModifyIndex := 7; api.Flags := 0; api.Value := "x" |};
    {| api.Key := "a/b"; api.ModifyIndex := 9; api.Flags := 0; api.Value := "y" |} ].

Definition snapshot : File :=
  {| file_name := "backup.snap"; file_data := "raft" |}.

(** A world whose parser takes every argument as positional and gives the
    delete flags [fl]; the store holds [pairs], accepts every delete and
    answers [cas_result] to a checked delete; the only file that opens is
    [backup.snap]. *)
Definition world_with (fl : DeleteFlags) (cas_result : bool * option error)
    : World :=
  {| parse_export := fun args => inr (export_flags, args);
     parse_delete := fun args => inr (fl, args);
     parse_restore := fun args => inr (restore_flags, args);
     DefaultConfig := default_config;
     new_client := fun conf => inr {| api.client_config := conf |};
     kv_list := fun _ _ _ => inr pairs;
     kv_delete := fun _ _ _ => None;
     kv_delete_tree := fun _ _ _ => None;
     kv_delete_cas := fun _ _ _ => cas_result;
     os_open := fun file =>
       if file =? "backup.snap" then inr snapshot
       else inl "open: no such file or directory";
     snapshot_restore := fun _ _ => None |}.

(** The store rejects every checked delete as out of date. *)
Definition world (fl : DeleteFlags) : World := world_with fl (false, None).

(** The same world, except that no client can be built. *)
Definition world_offline (fl : DeleteFlags) : World :=
  {| parse_export := parse_export (world fl);
     parse_delete := parse_delete (world fl);
     parse_restore := parse_restore (world fl);
     DefaultConfig := DefaultConfig (world fl);
     new_client := fun _ => inl "invalid address";
     kv_list := kv_list (world fl);
     kv_delete := kv_delete (world fl);
     kv_delete_tree := kv_delete_tree (world fl);
     kv_delete_cas := kv_delete_cas (world fl);
     os_open := os_open (world fl);
     snapshot_restore := snapshot_restore (world fl) |}.

(** The same world, except that the store fails every call. *)
Definition world_failing (fl : DeleteFlags) : World :=
  {| parse_export := parse_export (world fl);
     parse_delete := parse_delete (world fl);
     parse_restore := parse_restore (world fl);
     DefaultConfig := DefaultConfig (world fl);
     new_client := new_client (world fl);
     kv_list := fun _ _ _ => inl "Unexpected response code: 500";
     kv_delete := fun _ _ _ => Some "Unexpected response code: 500";
     kv_delete_tree := fun _ _ _ => Some "Unexpected response code: 500";
     kv_delete_cas := fun _ _ _ => (false, Some "Unexpected response code: 500");
     os_open := os_open (world fl);
     snapshot_restore := fun _ _ => Some "Unexpected response code: 500" |}.

End Sample.

(** The key a command works on, read from the positional arguments
    (lines 56-74 and 191-210). *)
Definition key_of (rest : list string) : string :=
  stripLeadingSlash match rest with [a] => a | _ => "" end.

Definition starts_with_two_slashes (s : string) : bool :=
  match s with
  | String "/" (String "/" _) => true
  | _ => false
  end.

(** The pointer the loop of export stores for a pair. *)
Definition stored_entry (p : api.KVPair) : option kvExportEntry :=
  Some (toExportEntry p).

(** The bytes the JSON encoder copies as they are: printable ASCII other
    than the quote, the backslash and [<], [>], [&]. *)
Definition plain (b : ascii) : bool :=
  let n := N_of_ascii b in
  ((32 <=? n) && (n <? 128) && negb (n =? 92) && negb (n =? 34)
   && negb (n =? 60) && negb (n =? 62) && negb (n =? 38))%N.

Fixpoint all_plain (s : string) : bool :=
  match s with
  | EmptyString => true
  | String b rest => plain b && all_plain rest
  end.

(** Plain text between double quotes, and lines joined by newlines, to
    write down what export prints. *)
Definition quoted (s : string) : string :=
  String json.dquote (s ++ String json.dquote "").

Fixpoint lines (l : list string) : string :=
  match l with
  | [] => ""
  | [x] => x
  | x :: l' => x ++ String (ascii_of_N 10) (lines l')
  end.

Definition is_ui_info (e : Event) : bool :=
  match e with UiInfo _ => true | _ => false end.

Definition is_list_call (e : Event) : bool :=
  match e with KVList _ _ => true | _ => false end.

Definition is_delete_call (e : Event) : bool :=
  match e with
  | KVDelete _ _ | KVDeleteTree _ _ | KVDeleteCAS _ _ => true
  | _ => false
  end.

Definition is_restore_call (e : Event) : bool :=
  match e with SnapshotRestore _ => true | _ => false end.

(** ** What export is expected to print, written down on its own *)











(** The client constructions of a run. *)
Definition client_constructions (t : list Event) : list Event :=
  filter is_client_construction t.

(** * Properties *)

(** ** Running a command *)

Ltac run_cmd :=
  cbv beta iota zeta delta
    [bind ret exit panic emit when defer exec trace_of exit_code
     Ui_Error Ui_Info api_NewClient KV_List KV_Delete KV_DeleteTree
     KV_DeleteCAS os_Open Snapshot_Restore app fst snd].

(** Case analysis on what a command branches on: the innermost scrutinee
    first, so that each case reduces. *)
Ltac inner_scrutinee x :=
  lazymatch x with
  | context [match ?y with _ => _ end] => inner_scrutinee y
  | _ => x
  end.

Ltac split_cases :=
  repeat match goal with
    | |- context [match ?x with _ => _ end] =>
        let y := inner_scrutinee x in destruct y eqn:?
    end.

Lemma stripLeadingSlash_slash (s : string) :
  stripLeadingSlash (String "/" s) = s.
Proof. reflexivity. Qed.

Lemma string_cons_neq (c : ascii) (s : string) : s <> String c s.
Proof.
  intros H. apply (f_equal String.length) in H. simpl in H. lia.
Qed.

(** ** [kv delete]: the validation sequence *)

Section DeleteValidation.

Variable w : World.
Variables (args : list string) (fl : DeleteFlags) (rest : list string).
Hypothesis parsed : parse_delete w args = inr (fl, rest).

Lemma delete_run_parsed :
  KVDeleteCommand.Run w args = KVDeleteCommand.run_parsed w fl rest.
Proof. unfold KVDeleteCommand.Run. rewrite parsed. reflexivity. Qed.

End DeleteValidation.

(** C3: with no key (no positional argument, or one that normalizes to the
    empty string) and without -recurse, delete reports the missing key and
    exits 1, whatever the other flags are; it builds no client and makes no
    store call. *)
Theorem delete_missing_key_exits_1 :
  forall (w : World) (args : list string) (fl : DeleteFlags) (rest : list string),
    parse_delete w args = inr (fl, rest) ->
    (rest = [] \/ exists a, rest = [a] /\ stripLeadingSlash a = "") ->
    d_recurse fl = false ->
    exec (KVDeleteCommand.Run w args)
      = ([UiError KVDeleteCommand.msg_missing_key], 1%Z)
    /\ existsb is_client_construction (trace_of (KVDeleteCommand.Run w args)) = false
    /\ store_calls (trace_of (KVDeleteCommand.Run w args)) = [].
Proof.
  intros w args fl rest Hp Hkey Hrec.
  assert (E : exec (KVDeleteCommand.Run w args)
              = ([UiError KVDeleteCommand.msg_missing_key], 1%Z)).
  { rewrite (delete_run_parsed w args fl rest Hp).
    unfold KVDeleteCommand.run_parsed.
    destruct Hkey as [-> | [a [-> Ha]]]; run_cmd; [| rewrite Ha ];
      rewrite Hrec; reflexivity. }
  unfold trace_of. rewrite E. repeat split.
Qed.

Lemma delete_missing_key_exits_1_witness :
  exec (KVDeleteCommand.Run (Sample.world (Sample.delete_flags true 5 false)) ["/"])
    = ([UiError KVDeleteCommand.msg_missing_key], 1%Z)
  /\ existsb is_client_construction
       (trace_of (KVDeleteCommand.Run (Sample.world (Sample.delete_flags true 5 false)) ["/"])) = false
  /\ store_calls
       (trace_of (KVDeleteCommand.Run (Sample.world (Sample.delete_flags true 5 false)) ["/"])) = [].
Proof.
  apply (delete_missing_key_exits_1
           (Sample.world (Sample.delete_flags true 5 false)) ["/"]
           (Sample.delete_flags true 5 false) ["/"]).
  - reflexivity.
  - right. exists "/". split; reflexivity.
  - reflexivity.
Defined.

(** C4: with -cas and a version-check value of zero (the default of
    -modify-index), delete reports one error and exits 1, before any client
    is built or any store call is made; when a key or -recurse was given, the
    error is the one that asks for -modify-index. *)
Theorem delete_cas_without_index_exits_1 :
  forall (w : World) (args : list string) (fl : DeleteFlags) (rest : list string),
    parse_delete w args = inr (fl, rest) ->
    d_cas fl = true ->
    d_modifyIndex fl = 0%N ->
    (exists msg, exec (KVDeleteCommand.Run w args) = ([UiError msg], 1%Z))
    /\ exit_code (KVDeleteCommand.Run w args) = 1%Z
    /\ existsb is_client_construction (trace_of (KVDeleteCommand.Run w args)) = false
    /\ store_calls (trace_of (KVDeleteCommand.Run w args)) = []
    /\ ((length rest <= 1)%nat ->
        key_of rest <> "" \/ d_recurse fl = true ->
        exec (KVDeleteCommand.Run w args)
          = ([UiError KVDeleteCommand.msg_need_index], 1%Z)).
Proof.
  intros w args fl rest Hp Hcas Hidx.
  rewrite (delete_run_parsed w args fl rest Hp).
  unfold KVDeleteCommand.run_parsed.
  destruct rest as [| a [| b l]]; run_cmd; rewrite ?Hcas, ?Hidx; simpl andb.
  - destruct (d_recurse fl); simpl; repeat split; eauto.
    intros _ [H | H]; [ now elim H | discriminate ].
  - unfold key_of.
    destruct (String.eqb_spec (stripLeadingSlash a) "") as [E | E];
      destruct (d_recurse fl); simpl; repeat split; eauto.
    intros _ [H | H]; [ now elim H | discriminate ].
  - simpl. repeat split; eauto. intros H. simpl in H. lia.
Qed.

Lemma delete_cas_without_index_exits_1_witness :
  exec (KVDeleteCommand.Run (Sample.world (Sample.delete_flags true 0 false)) ["foo"])
    = ([UiError KVDeleteCommand.msg_need_index], 1%Z).
Proof.
  apply (delete_cas_without_index_exits_1
           (Sample.world (Sample.delete_flags true 0 false)) ["foo"]
           (Sample.delete_flags true 0 false) ["foo"]).
  - reflexivity.
  - reflexivity.
  - reflexivity.
  - simpl. lia.
  - left. discriminate.
Defined.

(** C5: with both -recurse and -cas, delete exits 1 whatever the key and the
    -modify-index value are, without building a client or making a store
    call; when the earlier checks pass, the error is the one that rejects
    the combination. *)
Theorem delete_recurse_and_cas_exits_1 :
  forall (w : World) (args : list string) (fl : DeleteFlags) (rest : list string),
    parse_delete w args = inr (fl, rest) ->
    d_recurse fl = true ->
    d_cas fl = true ->
    exit_code (KVDeleteCommand.Run w args) = 1%Z
    /\ existsb is_client_construction (trace_of (KVDeleteCommand.Run w args)) = false
    /\ store_calls (trace_of (KVDeleteCommand.Run w args)) = []
    /\ ((length rest <= 1)%nat ->
        d_modifyIndex fl <> 0%N ->
        exec (KVDeleteCommand.Run w args)
          = ([UiError KVDeleteCommand.msg_cas_and_recurse], 1%Z)).
Proof.
  intros w args fl rest Hp Hrec Hcas.
  rewrite (delete_run_parsed w args fl rest Hp).
  unfold KVDeleteCommand.run_parsed.
  destruct rest as [| a [| b l]]; run_cmd; rewrite ?Hcas, ?Hrec;
    rewrite ?andb_false_r; simpl andb; simpl negb;
    try (destruct (N.eqb_spec (d_modifyIndex fl) 0) as [E | E]);
    simpl; repeat split; try congruence; try (intros; simpl in *; lia).
Qed.

Lemma delete_recurse_and_cas_exits_1_witness :
  exec (KVDeleteCommand.Run (Sample.world (Sample.delete_flags true 5 true)) ["foo"])
    = ([UiError KVDeleteCommand.msg_cas_and_recurse], 1%Z).
Proof.
  apply (delete_recurse_and_cas_exits_1
           (Sample.world (Sample.delete_flags true 5 true)) ["foo"]
           (Sample.delete_flags true 5 true) ["foo"]).
  - reflexivity.
  - reflexivity.
  - reflexivity.
  - simpl. lia.
  - discriminate.
Defined.

(** ** [kv delete]: a version-check value without -cas *)

(** C1, as stated, fails: with -modify-index=5, no -cas, no -recurse and no
    key, delete stops at the first check and makes no store call. *)
Lemma delete_index_without_cas_may_stop :
  ~ (forall (w : World) (args : list string) (fl : DeleteFlags) (rest : list string),
       parse_delete w args = inr (fl, rest) ->
       d_modifyIndex fl <> 0%N ->
       d_cas fl = false ->
       In (UiError KVDeleteCommand.msg_index_without_cas)
          (trace_of (KVDeleteCommand.Run w args))
       /\ store_calls (trace_of (KVDeleteCommand.Run w args)) <> []).
Proof.
  intros H.
  destruct (H (Sample.world (Sample.delete_flags false 5 false)) []
              (Sample.delete_flags false 5 false) []) as [_ Hcalls].
  - reflexivity.
  - discriminate.
  - reflexivity.
  - apply Hcalls. reflexivity.
Qed.

(** C1, amended: when the checks before it pass (at most one positional
    argument; a key, or -recurse), a nonzero -modify-index without -cas makes
    delete print its error and go on: it builds the client and, with a
    client, makes one store call (a recursive delete with -recurse, a plain
    delete otherwise), reports on it, and returns 0 when that call succeeded
    and 1 when it failed. *)
Theorem delete_index_without_cas_continues :
  forall (w : World) (args : list string) (fl : DeleteFlags) (rest : list string)
         (client : api.Client),
    parse_delete w args = inr (fl, rest) ->
    d_modifyIndex fl <> 0%N ->
    d_cas fl = false ->
    (length rest <= 1)%nat ->
    key_of rest <> "" \/ d_recurse fl = true ->
    new_client w (KVDeleteCommand.client_conf (DefaultConfig w) fl) = inr client ->
    let key := key_of rest in
    let wo := {| api.w_Datacenter := d_datacenter fl |} in
    let call := if d_recurse fl then KVDeleteTree key wo else KVDelete key wo in
    let result := if d_recurse fl then kv_delete_tree w client key wo
                  else kv_delete w client key wo in
    let report :=
      match result with
      | Some err =>
          UiError (if d_recurse fl then KVDeleteCommand.msg_tree_failed key err
                   else KVDeleteCommand.msg_delete_failed key err)
      | None =>
          UiInfo (if d_recurse fl then KVDeleteCommand.msg_tree_ok key
                  else KVDeleteCommand.msg_deleted key)
      end in
    exec (KVDeleteCommand.Run w args)
      = ([UiError KVDeleteCommand.msg_index_without_cas;
          NewClient (KVDeleteCommand.client_conf (DefaultConfig w) fl);
          call; report],
         match result with Some _ => 1%Z | None => 0%Z end)
    /\ store_calls (trace_of (KVDeleteCommand.Run w args)) = [call].
Proof.
  intros w args fl rest client Hp Hidx Hcas Hlen Hkey Hclient.
  rewrite (delete_run_parsed w args fl rest Hp).
  unfold KVDeleteCommand.run_parsed, KVDeleteCommand.dispatch.
  apply N.eqb_neq in Hidx.
  assert (Hk : (key_of rest =? "") && negb (d_recurse fl) = false).
  { destruct Hkey as [H | H].
    - apply String.eqb_neq in H. rewrite H. reflexivity.
    - rewrite H. apply andb_false_r. }
  destruct rest as [| a [| b l]]; [ | | simpl in Hlen; lia ];
    unfold key_of in *; run_cmd; rewrite Hk, Hcas, Hidx, Hclient;
    rewrite ?andb_false_r; simpl andb; cbv iota;
    destruct (d_recurse fl); cbv iota;
    match goal with
    | |- context [match ?r with Some _ => _ | None => _ end] => destruct r
    end; split; reflexivity.
Qed.

Lemma delete_index_without_cas_continues_witness :
  exec (KVDeleteCommand.Run (Sample.world (Sample.delete_flags false 5 false)) ["/foo"])
    = ([UiError KVDeleteCommand.msg_index_without_cas;
        NewClient (KVDeleteCommand.client_conf Sample.default_config
                     (Sample.delete_flags false 5 false));
        KVDelete "foo" {| api.w_Datacenter := "dc1" |};
        UiInfo (KVDeleteCommand.msg_deleted "foo")],
       0%Z)
  /\ store_calls
       (trace_of (KVDeleteCommand.Run
                    (Sample.world (Sample.delete_flags false 5 false)) ["/foo"]))
     = [KVDelete "foo" {| api.w_Datacenter := "dc1" |}].
Proof.
  apply (delete_index_without_cas_continues
           (Sample.world (Sample.delete_flags false 5 false)) ["/foo"]
           (Sample.delete_flags false 5 false) ["/foo"]
           {| api.client_config :=
                KVDeleteCommand.client_conf Sample.default_config
                  (Sample.delete_flags false 5 false) |}).
  - reflexivity.
  - discriminate.
  - reflexivity.
  - simpl. lia.
  - left. discriminate.
  - reflexivity.
Defined.

(** ** [kv delete]: the checked delete *)

Lemma string_append_inj_l (p s t : string) : p ++ s = p ++ t -> s = t.
Proof.
  induction p as [| c p IH]; simpl; intros H.
  - exact H.
  - injection H as H. auto.
Qed.

Lemma string_append_assoc (p q r : string) : (p ++ q) ++ r = p ++ (q ++ r).
Proof.
  induction p as [| c p IH]; simpl; [ reflexivity | now rewrite IH ].
Qed.

Lemma cas_messages_equal_iff (key : string) (err : error) :
  KVDeleteCommand.msg_cas_error key err = KVDeleteCommand.msg_cas_failed key
  <-> err = "CAS failed".
Proof.
  unfold KVDeleteCommand.msg_cas_error, KVDeleteCommand.msg_cas_failed.
  split.
  - intros H. apply string_append_inj_l in H. apply string_append_inj_l in H.
    now apply (string_append_inj_l ": ") in H.
  - intros ->. reflexivity.
Qed.

(** C6, as stated, fails: when the text of the underlying error is
    [CAS failed], a checked delete whose call fails and one whose call
    succeeds and reports that nothing was deleted print the same message. *)
Lemma cas_failure_messages_can_coincide :
  KVDeleteCommand.msg_cas_error "foo" "CAS failed" = KVDeleteCommand.msg_cas_failed "foo"
  /\ exec (KVDeleteCommand.Run
             (Sample.world_with (Sample.delete_flags true 5 false)
                (false, Some "CAS failed")) ["foo"])
     = exec (KVDeleteCommand.Run
               (Sample.world_with (Sample.delete_flags true 5 false)
                  (false, None)) ["foo"]).
Proof. split; reflexivity. Qed.

(** C6, amended: a checked delete that is dispatched exits 1 with a message
    that ends in the underlying error when the call returns one, exits 1 with
    the [CAS failed] message when the call succeeds and reports that the key
    was not deleted, and exits 0 only when the call succeeds and reports
    success; the two failure messages differ exactly when the text of the
    underlying error is not [CAS failed]. *)
Theorem delete_cas_outcomes :
  forall (w : World) (args : list string) (fl : DeleteFlags) (rest : list string)
         (client : api.Client),
    parse_delete w args = inr (fl, rest) ->
    d_cas fl = true ->
    d_recurse fl = false ->
    d_modifyIndex fl <> 0%N ->
    (length rest <= 1)%nat ->
    key_of rest <> "" ->
    new_client w (KVDeleteCommand.client_conf (DefaultConfig w) fl) = inr client ->
    let key := key_of rest in
    let wo := {| api.w_Datacenter := d_datacenter fl |} in
    let kv := {| api.Key := key; api.ModifyIndex := d_modifyIndex fl;
                 api.Flags := 0%N; api.Value := "" |} in
    let before := [NewClient (KVDeleteCommand.client_conf (DefaultConfig w) fl);
                   KVDeleteCAS kv wo] in
    let result := kv_delete_cas w client kv wo in
    (forall success err, result = (success, Some err) ->
       exec (KVDeleteCommand.Run w args)
         = ((before ++ [UiError (KVDeleteCommand.msg_cas_error key err)])%list, 1%Z)
       /\ exists text, KVDeleteCommand.msg_cas_error key err = text ++ err)
    /\ (result = (false, None) ->
        exec (KVDeleteCommand.Run w args)
          = ((before ++ [UiError (KVDeleteCommand.msg_cas_failed key)])%list, 1%Z))
    /\ (result = (true, None) ->
        exec (KVDeleteCommand.Run w args)
          = ((before ++ [UiInfo (KVDeleteCommand.msg_deleted key)])%list, 0%Z))
    /\ (exit_code (KVDeleteCommand.Run w args) = 0%Z <-> result = (true, None))
    /\ (forall err,
          KVDeleteCommand.msg_cas_error key err <> KVDeleteCommand.msg_cas_failed key
          <-> err <> "CAS failed").
Proof.
  intros w args fl rest client Hp Hcas Hrec Hidx Hlen Hkey Hclient key wo kv before result.
  assert (Hrun : exec (KVDeleteCommand.Run w args)
                 = match snd result with
                   | Some err =>
                       ((before ++ [UiError (KVDeleteCommand.msg_cas_error key err)])%list, 1%Z)
                   | None =>
                       if fst result
                       then ((before ++ [UiInfo (KVDeleteCommand.msg_deleted key)])%list, 0%Z)
                       else ((before ++ [UiError (KVDeleteCommand.msg_cas_failed key)])%list, 1%Z)
                   end).
  { rewrite (delete_run_parsed w args fl rest Hp).
    unfold KVDeleteCommand.run_parsed, KVDeleteCommand.dispatch.
    apply N.eqb_neq in Hidx. apply String.eqb_neq in Hkey.
    subst result before kv wo key.
    destruct rest as [| a [| b l]]; [ | | simpl in Hlen; lia ];
      unfold key_of in *; run_cmd; rewrite Hkey, Hcas, Hrec, Hidx, Hclient;
      simpl andb; cbv iota;
      match goal with
      | |- context [kv_delete_cas ?a ?b ?c ?d] =>
          destruct (kv_delete_cas a b c d) as [[|] [e|]]
      end; reflexivity. }
  unfold exit_code. rewrite Hrun. repeat split.
  - rewrite H. reflexivity.
  - unfold KVDeleteCommand.msg_cas_error.
    exists ("Error! Did not delete key " ++ key ++ ": ").
    now rewrite !string_append_assoc.
  - intros ->. reflexivity.
  - intros ->. reflexivity.
  - destruct result as [[|] [e|]]; simpl; intros; congruence.
  - intros ->. reflexivity.
  - intros H E. apply H. apply cas_messages_equal_iff. exact E.
  - intros H E. apply H. apply (cas_messages_equal_iff key err). exact E.
Qed.

Lemma delete_cas_outcomes_witness :
  exec (KVDeleteCommand.Run (Sample.world (Sample.delete_flags true 5 false)) ["foo"])
    = ([NewClient (KVDeleteCommand.client_conf Sample.default_config
                     (Sample.delete_flags true 5 false));
        KVDeleteCAS {| api.Key := "foo"; api.ModifyIndex := 5;
                       api.Flags := 0; api.Value := "" |}
                    {| api.w_Datacenter := "dc1" |};
        UiError (KVDeleteCommand.msg_cas_failed "foo")],
       1%Z).
Proof.
  apply (delete_cas_outcomes
           (Sample.world (Sample.delete_flags true 5 false)) ["foo"]
           (Sample.delete_flags true 5 false) ["foo"]
           {| api.client_config :=
                KVDeleteCommand.client_conf Sample.default_config
                  (Sample.delete_flags true 5 false) |}).
  - reflexivity.
  - reflexivity.
  - reflexivity.
  - discriminate.
  - simpl. lia.
  - discriminate.
  - reflexivity.
  - reflexivity.
Defined.

(** ** The leading slash of a key *)

Lemma stripLeadingSlash_cases (s : string) :
  (exists r, s = String "/" r /\ stripLeadingSlash s = r)
  \/ (stripLeadingSlash s = s /\ forall r, s <> String "/" r).
Proof.
  destruct s as [| c r].
  - right. split; [ reflexivity | discriminate ].
  - destruct (ascii_dec c "/") as [-> | Hc].
    + left. exists r. split; reflexivity.
    + right. split.
      * unfold stripLeadingSlash.
        destruct c as [[|] [|] [|] [|] [|] [|] [|] [|]]; try reflexivity.
        now elim Hc.
      * intros r' H. injection H as H _. contradiction.
Qed.

Lemma stripLeadingSlash_twice (s : string) :
  stripLeadingSlash (stripLeadingSlash s) = stripLeadingSlash s
  <-> starts_with_two_slashes s = false.
Proof.
  destruct (stripLeadingSlash_cases s) as [[r [-> Hs]] | [Hs Hno]].
  - rewrite Hs.
    destruct (stripLeadingSlash_cases r) as [[r' [-> Hr]] | [Hr Hno]].
    + rewrite Hr. simpl. split; [ | discriminate ].
      intros H. elim (string_cons_neq "/" r'). exact H.
    + rewrite Hr. split; [ intros _ | reflexivity ].
      destruct r as [| c r']; [ reflexivity | ].
      simpl. destruct (ascii_dec c "/") as [-> | Hc].
      * now elim (Hno r').
      * destruct c as [[|] [|] [|] [|] [|] [|] [|] [|]]; try reflexivity.
        now elim Hc.
  - rewrite !Hs. split; [ intros _ | reflexivity ].
    destruct s as [| c [| c' r]]; try reflexivity.
    + destruct c as [[|] [|] [|] [|] [|] [|] [|] [|]]; reflexivity.
    + destruct (ascii_dec c "/") as [-> | Hc].
      * now elim (Hno (String c' r)).
      * destruct c as [[|] [|] [|] [|] [|] [|] [|] [|]]; try reflexivity.
        now elim Hc.
Qed.

(** C2, as stated, fails: a key that begins with two slashes loses one slash
    at each stripping, so stripping twice is not stripping once. *)
Lemma strip_twice_differs_on_double_slash :
  stripLeadingSlash (stripLeadingSlash "//a") <> stripLeadingSlash "//a".
Proof. discriminate. Qed.

(** C2, amended: export and delete strip one leading slash from their
    argument and make every store call on the stripped key; stripping twice
    is stripping once exactly on the strings that do not begin with two
    slashes. *)
Theorem leading_slash_stripped_once :
  (forall s, stripLeadingSlash (String "/" s) = s)
  /\ (forall s, stripLeadingSlash (stripLeadingSlash s) = stripLeadingSlash s
                <-> starts_with_two_slashes s = false)
  /\ (forall (w : World) (args : list string) (fl : ExportFlags) (a : string),
        parse_export w args = inr (fl, [a]) ->
        Forall (fun e => is_store_call e = true ->
                         store_key e = Some (stripLeadingSlash a))
               (trace_of (KVExportCommand.Run w args)))
  /\ (forall (w : World) (args : list string) (fl : DeleteFlags) (a : string),
        parse_delete w args = inr (fl, [a]) ->
        Forall (fun e => is_store_call e = true ->
                         store_key e = Some (stripLeadingSlash a))
               (trace_of (KVDeleteCommand.Run w args))).
Proof.
  split; [ exact stripLeadingSlash_slash | ].
  split; [ exact stripLeadingSlash_twice | ].
  split.
  - intros w args fl a Hp.
    unfold KVExportCommand.Run. rewrite Hp.
    unfold KVExportCommand.run_parsed, KVExportCommand.MarshalIndent.
    run_cmd. split_cases; run_cmd;
      repeat constructor; simpl; congruence.
  - intros w args fl a Hp.
    rewrite (delete_run_parsed w args fl [a] Hp).
    unfold KVDeleteCommand.run_parsed, KVDeleteCommand.dispatch.
    run_cmd. split_cases; run_cmd;
      repeat constructor; simpl; congruence.
Qed.

Lemma leading_slash_stripped_once_witness :
  Forall (fun e => is_store_call e = true -> store_key e = Some "foo")
    (trace_of (KVDeleteCommand.Run
                 (Sample.world (Sample.delete_flags false 0 false)) ["/foo"]))
  /\ store_calls
       (trace_of (KVDeleteCommand.Run
                    (Sample.world (Sample.delete_flags false 0 false)) ["/foo"]))
     = [KVDelete "foo" {| api.w_Datacenter := "dc1" |}].
Proof.
  split.
  - apply (proj2 (proj2 (proj2 leading_slash_stripped_once))
             (Sample.world (Sample.delete_flags false 0 false)) ["/foo"]
             (Sample.delete_flags false 0 false) "/foo").
    reflexivity.
  - reflexivity.
Defined.

(** ** [kv export] *)

(** The standard base64 alphabet and padding, on the test vectors of
    RFC 4648. *)
Example base64_rfc4648_vectors :
  base64.EncodeToString "" = ""
  /\ base64.EncodeToString "f" = "Zg=="
  /\ base64.EncodeToString "fo" = "Zm8="
  /\ base64.EncodeToString "foo" = "Zm9v"
  /\ base64.EncodeToString "foob" = "Zm9vYg=="
  /\ base64.EncodeToString "fooba" = "Zm9vYmE="
  /\ base64.EncodeToString "foobar" = "Zm9vYmFy".
Proof. repeat split. Qed.

Section ExportLoop.

Local Open Scope list_scope.

Lemma assign_at_end_of_prefix (done tl : list (option kvExportEntry))
    (old : option kvExportEntry) (v : kvExportEntry) :
  KVExportCommand.assign (done ++ old :: tl) (length done) v
    = Some (done ++ Some v :: tl).
Proof.
  induction done as [| d done IH]; simpl.
  - reflexivity.
  - rewrite IH. reflexivity.
Qed.

(** Once the first places hold their entries, the loop fills the others
    with the entries of the pairs left, in order. *)
Lemma range_loop_fills (pairs : list api.KVPair) :
  forall done : list (option kvExportEntry),
    KVExportCommand.range_loop (length done) pairs
      (done ++ repeat None (length pairs))
    = Some (done ++ map stored_entry pairs).
Proof.
  induction pairs as [| p pairs IH]; intros done; simpl.
  - reflexivity.
  - rewrite assign_at_end_of_prefix.
    change (Some (toExportEntry p)) with (stored_entry p).
    specialize (IH (done ++ [stored_entry p])).
    rewrite length_app, <- !app_assoc in IH. simpl in IH.
    rewrite Nat.add_1_r in IH. exact IH.
Qed.

(** The loop never leaves the slice: it stores one entry per pair. *)
Lemma export_entries_total (pairs : list api.KVPair) :
  KVExportCommand.export_entries pairs = Some (map stored_entry pairs).
Proof. exact (range_loop_fills pairs []). Qed.

End ExportLoop.

(** The text export prints for the store of the example: a tab per level,
    one member per line, a space after each colon. *)
Example export_text_of_two_pairs :
  let tab := KVExportCommand.tab in
  trace_of (KVExportCommand.Run (Sample.world (Sample.delete_flags false 0 false)) ["a"])
  = [NewClient (KVExportCommand.client_conf Sample.default_config Sample.export_flags);
     KVList "a" {| api.q_Datacenter := "dc1"; api.AllowStale := false |};
     UiInfo (lines
       ["[";
        tab ++ "{";
        tab ++ tab ++ quoted "key" ++ ": " ++ quoted "a" ++ ",";
        tab ++ tab ++ quoted "flags" ++ ": 0,";
        tab ++ tab ++ quoted "value" ++ ": " ++ quoted "eA==";
        tab ++ "},";
        tab ++ "{";
        tab ++ tab ++ quoted "key" ++ ": " ++ quoted "a/b" ++ ",";
        tab ++ tab ++ quoted "flags" ++ ": 0,";
        tab ++ tab ++ quoted "value" ++ ": " ++ quoted "eQ==";
        tab ++ "}";
        "]"])].
Proof. reflexivity. Qed.

(** Without pairs the array is printed with nothing between its brackets. *)
Example export_text_of_no_pair :
  json.render "" KVExportCommand.tab 0 (KVExportCommand.exported_json []) = "[]".
Proof. reflexivity. Qed.

(** ** What the printed text holds *)

Lemma escapeByte_plain (b : ascii) :
  plain b = true -> json.escapeByte b = String b "".
Proof.
  unfold plain, json.escapeByte. intros H.
  apply andb_prop in H as [H H38]. apply andb_prop in H as [H H62].
  apply andb_prop in H as [H H60]. apply andb_prop in H as [H H34].
  apply andb_prop in H as [H H92]. apply andb_prop in H as [H32 H128].
  rewrite H32, H92, H34, H60, H62, H38. reflexivity.
Qed.

(** Plain text is copied between the quotes as it is. *)
Lemma encodeString_plain (s : string) :
  all_plain s = true -> json.encodeString s = quoted s.
Proof.
  intros H. unfold json.encodeString, quoted. do 2 f_equal.
  induction s as [| b s IH]; [ reflexivity | ].
  simpl in H. apply andb_prop in H as [Hb Hs].
  simpl. rewrite (escapeByte_plain b Hb), (IH Hs).
  unfold plain in Hb. apply andb_prop in Hb as [Hb _]. apply andb_prop in Hb as [Hb _].
  apply andb_prop in Hb as [Hb _]. apply andb_prop in Hb as [Hb _].
  apply andb_prop in Hb as [Hb _]. apply andb_prop in Hb as [_ Hb].
  rewrite Hb. reflexivity.
Qed.

Lemma encode_plain (i : N) : (i < 64)%N -> plain (base64.encode i) = true.
Proof.
  intros H.
  assert (A : forallb (fun k => plain (base64.encode (N.of_nat k))) (seq 0 64) = true)
    by reflexivity.
  rewrite forallb_forall in A.
  specialize (A (N.to_nat i)). rewrite N2Nat.id in A.
  apply A. apply in_seq. lia.
Qed.

Lemma sextet_plain (val shift : N) : plain (base64.sextet val shift) = true.
Proof.
  unfold base64.sextet. apply encode_plain.
  change 63%N with (N.ones 6). rewrite N.land_ones.
  apply N.mod_lt. discriminate.
Qed.

(** The base64 text of any value is plain. *)
Lemma EncodeToString_plain (src : string) :
  all_plain (base64.EncodeToString src) = true.
Proof.
  assert (A : forall n s, (String.length s <= n)%nat ->
                          all_plain (base64.EncodeToString s) = true).
  { induction n as [| n IH]; intros s Hs.
    - destruct s; [ reflexivity | simpl in Hs; lia ].
    - destruct s as [| b0 [| b1 [| b2 rest]]];
        cbn [base64.EncodeToString all_plain].
      + reflexivity.
      + rewrite !sextet_plain. reflexivity.
      + rewrite !sextet_plain. reflexivity.
      + rewrite !sextet_plain. cbn [andb]. apply IH.
        cbn [String.length] in Hs. lia. }
  exact (A (String.length src) src (le_n _)).
Qed.

(** X3: the text of one exported pair whose key is plain: the key and the
    base64 text of the value stand between quotes as they are, the flags in
    decimal. *)
Lemma exported_pair_text (depth : nat) (p : api.KVPair) :
  all_plain (api.Key p) = true ->
  let nl := json.newline "" KVExportCommand.tab in
  json.render "" KVExportCommand.tab depth
    (KVExportCommand.entry_json (toExportEntry p))
  = "{" ++ nl (S depth)
    ++ quoted "key" ++ ": " ++ quoted (api.Key p) ++ "," ++ nl (S depth)
    ++ quoted "flags" ++ ": " ++ NilZero.string_of_uint (N.to_uint (api.Flags p))
    ++ "," ++ nl (S depth)
    ++ quoted "value" ++ ": " ++ quoted (base64.EncodeToString (api.Value p))
    ++ nl depth ++ "}".
Proof.
  intros Hkey nl.
  unfold KVExportCommand.entry_json, toExportEntry.
  cbn [json.render Key Flags Value].
  rewrite (encodeString_plain (api.Key p) Hkey).
  rewrite (encodeString_plain _ (EncodeToString_plain (api.Value p))).
  rewrite (encodeString_plain "key" eq_refl), (encodeString_plain "flags" eq_refl),
    (encodeString_plain "value" eq_refl).
  subst nl. rewrite !string_append_assoc. reflexivity.
Qed.

Lemma exported_pair_text_witness :
  json.render "" KVExportCommand.tab 1
    (KVExportCommand.entry_json
       (toExportEntry {| api.Key := "a/b"; api.ModifyIndex := 9;
                         api.Flags := 0; api.Value := "y" |}))
  = lines
      ["{";
       KVExportCommand.tab ++ KVExportCommand.tab ++ quoted "key" ++ ": "
         ++ quoted "a/b" ++ ",";
       KVExportCommand.tab ++ KVExportCommand.tab ++ quoted "flags" ++ ": 0,";
       KVExportCommand.tab ++ KVExportCommand.tab ++ quoted "value" ++ ": "
         ++ quoted "eQ==";
       KVExportCommand.tab ++ "}"].
Proof.
  apply (exported_pair_text 1
           {| api.Key := "a/b"; api.ModifyIndex := 9;
              api.Flags := 0; api.Value := "y" |}).
  reflexivity.
Defined.

(** ** [snapshot restore] *)

Lemma restore_run_parsed (w : World) (args : list string) (fl : RestoreFlags)
    (rest : list string) :
  parse_restore w args = inr (fl, rest) ->
  SnapshotRestoreCommand.Run w args = SnapshotRestoreCommand.run_parsed w fl rest.
Proof. intros H. unfold SnapshotRestoreCommand.Run. rewrite H. reflexivity. Qed.

(** C8: with no positional argument, or with two or more, restore reports
    the wrong count and exits 1 without opening a file, building a client or
    calling the store. *)
Theorem restore_wrong_argument_count_exits_1 :
  forall (w : World) (args : list string) (fl : RestoreFlags) (rest : list string),
    parse_restore w args = inr (fl, rest) ->
    length rest <> 1%nat ->
    exec (SnapshotRestoreCommand.Run w args)
      = ([UiError match rest with
                  | [] => SnapshotRestoreCommand.msg_missing_file
                  | _ => SnapshotRestoreCommand.msg_too_many (length rest)
                  end], 1%Z)
    /\ existsb is_file_open (trace_of (SnapshotRestoreCommand.Run w args)) = false
    /\ existsb is_client_construction (trace_of (SnapshotRestoreCommand.Run w args)) = false
    /\ store_calls (trace_of (SnapshotRestoreCommand.Run w args)) = [].
Proof.
  intros w args fl rest Hp Hlen.
  rewrite (restore_run_parsed w args fl rest Hp).
  unfold SnapshotRestoreCommand.run_parsed.
  destruct rest as [| a [| b l]]; [ | now elim Hlen | ];
    repeat split.
Qed.

Lemma restore_wrong_argument_count_exits_1_witness :
  exec (SnapshotRestoreCommand.Run
          (Sample.world (Sample.delete_flags false 0 false))
          ["backup.snap"; "other.snap"])
    = ([UiError (SnapshotRestoreCommand.msg_too_many 2)], 1%Z)
  /\ exec (SnapshotRestoreCommand.Run
             (Sample.world (Sample.delete_flags false 0 false)) [])
     = ([UiError SnapshotRestoreCommand.msg_missing_file], 1%Z).
Proof.
  split.
  - apply (restore_wrong_argument_count_exits_1
             (Sample.world (Sample.delete_flags false 0 false))
             ["backup.snap"; "other.snap"]
             Sample.restore_flags ["backup.snap"; "other.snap"]).
    + reflexivity.
    + simpl. lia.
  - apply (restore_wrong_argument_count_exits_1
             (Sample.world (Sample.delete_flags false 0 false)) []
             Sample.restore_flags []).
    + reflexivity.
    + simpl. lia.
Defined.

(** C9: when the snapshot file does not open, restore exits 1 and never
    calls the store; in every run, a restore call comes right after the
    opening of the file it streams, and that opening succeeded. *)
Theorem restore_only_after_open :
  forall (w : World) (args : list string),
    (forall (fl : RestoreFlags) (file : string) (err : error),
        parse_restore w args = inr (fl, [file]) ->
        os_open w file = inl err ->
        exit_code (SnapshotRestoreCommand.Run w args) = 1%Z
        /\ store_calls (trace_of (SnapshotRestoreCommand.Run w args)) = [])
    /\ (forall f : File,
          In (SnapshotRestore f) (trace_of (SnapshotRestoreCommand.Run w args)) ->
          exists (file : string) (before after : list Event),
            trace_of (SnapshotRestoreCommand.Run w args)
              = (before ++ OsOpen file :: SnapshotRestore f :: after)%list
            /\ os_open w file = inr f
            /\ store_calls before = []).
Proof.
  intros w args. split.
  - intros fl file err Hp Hopen.
    rewrite (restore_run_parsed w args fl [file] Hp).
    unfold SnapshotRestoreCommand.run_parsed.
    run_cmd. rewrite Hopen.
    destruct (new_client w _); split; reflexivity.
  - intros f.
    unfold SnapshotRestoreCommand.Run.
    destruct (parse_restore w args) as [e | [fl rest]]; [ simpl; tauto | ].
    unfold SnapshotRestoreCommand.run_parsed.
    destruct rest as [| file [| b l]]; [ simpl; intuition discriminate | |
                                         simpl; intuition discriminate ].
    run_cmd.
    destruct (new_client w _) as [e | client];
      [ simpl; intuition discriminate | ].
    destruct (os_open w file) as [e | f0] eqn:Hopen;
      [ simpl; intuition discriminate | ].
    destruct (snapshot_restore w client f0); simpl; intros Hin;
      exists file, [NewClient (SnapshotRestoreCommand.client_conf (DefaultConfig w) fl)];
      eexists;
      (assert (f = f0) as -> by (intuition (try discriminate; congruence)));
      repeat split; (reflexivity || exact Hopen).
Qed.

Lemma restore_only_after_open_witness :
  exit_code (SnapshotRestoreCommand.Run
               (Sample.world (Sample.delete_flags false 0 false)) ["missing.snap"])
    = 1%Z
  /\ store_calls
       (trace_of (SnapshotRestoreCommand.Run
                    (Sample.world (Sample.delete_flags false 0 false)) ["missing.snap"]))
     = [].
Proof.
  apply (proj1 (restore_only_after_open
                  (Sample.world (Sample.delete_flags false 0 false)) ["missing.snap"])
           Sample.restore_flags "missing.snap" "open: no such file or directory").
  - reflexivity.
  - reflexivity.
Defined.

(** A restore that goes through: the client, the file, the call, the report,
    and the file closed on the way out. *)
Example restore_of_backup :
  exec (SnapshotRestoreCommand.Run
          (Sample.world (Sample.delete_flags false 0 false)) ["backup.snap"])
  = ([NewClient (SnapshotRestoreCommand.client_conf Sample.default_config
                   Sample.restore_flags);
      OsOpen "backup.snap";
      SnapshotRestore Sample.snapshot;
      UiInfo SnapshotRestoreCommand.msg_restored;
      FileClose Sample.snapshot],
     0%Z).
Proof. reflexivity. Qed.

(** ** One store call, and the file closed *)

(** X1: each command makes at most one store call in a run. *)
Theorem at_most_one_store_call :
  forall (w : World) (args : list string),
    (length (store_calls (trace_of (KVExportCommand.Run w args))) <= 1)%nat
    /\ (length (store_calls (trace_of (KVDeleteCommand.Run w args))) <= 1)%nat
    /\ (length (store_calls (trace_of (SnapshotRestoreCommand.Run w args))) <= 1)%nat.
Proof.
  intros w args. repeat split.
  - unfold KVExportCommand.Run, KVExportCommand.run_parsed,
      KVExportCommand.MarshalIndent.
    run_cmd. split_cases; simpl; lia.
  - unfold KVDeleteCommand.Run, KVDeleteCommand.run_parsed,
      KVDeleteCommand.dispatch.
    run_cmd. split_cases; simpl; lia.
  - unfold SnapshotRestoreCommand.Run, SnapshotRestoreCommand.run_parsed.
    run_cmd. split_cases; simpl; lia.
Qed.

(** X2: once the snapshot file is open, restore calls the store on it and
    closes it as the last thing it does, whether the store accepted the
    snapshot or not. *)
Theorem restore_closes_opened_file :
  forall (w : World) (args : list string) (fl : RestoreFlags) (file : string)
         (client : api.Client) (f : File),
    parse_restore w args = inr (fl, [file]) ->
    new_client w (SnapshotRestoreCommand.client_conf (DefaultConfig w) fl)
      = inr client ->
    os_open w file = inr f ->
    exists before : list Event,
      trace_of (SnapshotRestoreCommand.Run w args) = (before ++ [FileClose f])%list
      /\ ~ In (FileClose f) before
      /\ In (SnapshotRestore f) before.
Proof.
  intros w args fl file client f Hp Hclient Hopen.
  rewrite (restore_run_parsed w args fl [file] Hp).
  unfold SnapshotRestoreCommand.run_parsed.
  run_cmd. rewrite Hclient, Hopen.
  destruct (snapshot_restore w client f) as [err |]; simpl.
  - exists [NewClient (SnapshotRestoreCommand.client_conf (DefaultConfig w) fl);
            OsOpen file; SnapshotRestore f;
            UiError (SnapshotRestoreCommand.msg_restore err)].
    repeat split; simpl; intuition discriminate.
  - exists [NewClient (SnapshotRestoreCommand.client_conf (DefaultConfig w) fl);
            OsOpen file; SnapshotRestore f;
            UiInfo SnapshotRestoreCommand.msg_restored].
    repeat split; simpl; intuition discriminate.
Qed.

Lemma restore_closes_opened_file_witness :
  exists before : list Event,
    trace_of (SnapshotRestoreCommand.Run
                (Sample.world (Sample.delete_flags false 0 false)) ["backup.snap"])
      = (before ++ [FileClose Sample.snapshot])%list
    /\ ~ In (FileClose Sample.snapshot) before
    /\ In (SnapshotRestore Sample.snapshot) before.
Proof.
  apply (restore_closes_opened_file
           (Sample.world (Sample.delete_flags false 0 false)) ["backup.snap"]
           Sample.restore_flags "backup.snap"
           {| api.client_config :=
                SnapshotRestoreCommand.client_conf Sample.default_config
                  Sample.restore_flags |}
           Sample.snapshot).
  - reflexivity.
  - reflexivity.
  - reflexivity.
Defined.

(** ** Further properties of the three commands *)

(** The loop of export never leaves its slice, so a match on its result
    has one case. *)
Ltac no_export_panic :=
  try match goal with
    | H : KVExportCommand.export_entries _ = None |- _ =>
        rewrite export_entries_total in H; discriminate H
    end.

Ltac all_runs :=
  unfold KVExportCommand.Run, KVExportCommand.run_parsed,
    KVExportCommand.MarshalIndent,
    KVDeleteCommand.Run, KVDeleteCommand.run_parsed, KVDeleteCommand.dispatch,
    SnapshotRestoreCommand.Run, SnapshotRestoreCommand.run_parsed;
  run_cmd; split_cases; no_export_panic.

(** X4: with two or more positional arguments, export reports the count
    and exits 1 without building a client or calling the store. *)
Theorem export_too_many_arguments_exits_1 :
  forall (w : World) (args : list string) (fl : ExportFlags) (rest : list string),
    parse_export w args = inr (fl, rest) ->
    (2 <= length rest)%nat ->
    exec (KVExportCommand.Run w args)
      = ([UiError (KVExportCommand.msg_too_many (length rest))], 1%Z).
Proof.
  intros w args fl rest Hp Hlen.
  unfold KVExportCommand.Run. rewrite Hp.
  unfold KVExportCommand.run_parsed.
  destruct rest as [| a [| b l]]; simpl in Hlen; try lia.
  reflexivity.
Qed.

Lemma export_too_many_arguments_exits_1_witness :
  exec (KVExportCommand.Run (Sample.world (Sample.delete_flags false 0 false))
          ["a"; "b"; "c"])
    = ([UiError (KVExportCommand.msg_too_many 3)], 1%Z).
Proof.
  apply (export_too_many_arguments_exits_1
           (Sample.world (Sample.delete_flags false 0 false)) ["a"; "b"; "c"]
           Sample.export_flags ["a"; "b"; "c"]).
  - reflexivity.
  - simpl. lia.
Defined.

(** X5: every run of a command ends with exit code 0 or 1 (the loop of
    export never panics), and it prints a message with [Ui.Info] exactly
    when the exit code is 0. *)
Theorem info_printed_iff_exit_0 :
  forall (w : World) (args : list string),
    let ok (m : Cmd Empty_set) :=
      (exit_code m = 0%Z \/ exit_code m = 1%Z)
      /\ (existsb is_ui_info (trace_of m) = true <-> exit_code m = 0%Z) in
    ok (KVExportCommand.Run w args)
    /\ ok (KVDeleteCommand.Run w args)
    /\ ok (SnapshotRestoreCommand.Run w args).
Proof.
  intros w args ok. subst ok. cbv beta.
  repeat split; all_runs; simpl; auto; intros; discriminate.
Qed.

(** X6: export only ever lists, delete only ever deletes, restore only ever
    restores: no other kind of store call appears in their runs. *)
Theorem store_call_kinds :
  forall (w : World) (args : list string),
    Forall (fun e => is_store_call e = true -> is_list_call e = true)
      (trace_of (KVExportCommand.Run w args))
    /\ Forall (fun e => is_store_call e = true -> is_delete_call e = true)
         (trace_of (KVDeleteCommand.Run w args))
    /\ Forall (fun e => is_store_call e = true -> is_restore_call e = true)
         (trace_of (SnapshotRestoreCommand.Run w args)).
Proof.
  intros w args.
  repeat split; all_runs; repeat constructor; simpl; congruence.
Qed.

(** X7: without -cas and without -modify-index, delete with a client makes
    one call, a recursive delete with -recurse and a plain delete otherwise,
    and reports on it; with -recurse the prefix may be empty, which asks the
    store to delete every key. *)
Theorem delete_without_cas_outcomes :
  forall (w : World) (args : list string) (fl : DeleteFlags) (rest : list string)
         (client : api.Client),
    parse_delete w args = inr (fl, rest) ->
    d_cas fl = false ->
    d_modifyIndex fl = 0%N ->
    (length rest <= 1)%nat ->
    key_of rest <> "" \/ d_recurse fl = true ->
    new_client w (KVDeleteCommand.client_conf (DefaultConfig w) fl) = inr client ->
    let key := key_of rest in
    let wo := {| api.w_Datacenter := d_datacenter fl |} in
    let before := NewClient (KVDeleteCommand.client_conf (DefaultConfig w) fl) in
    (d_recurse fl = true ->
       exec (KVDeleteCommand.Run w args)
       = match kv_delete_tree w client key wo with
         | Some err =>
             ([before; KVDeleteTree key wo;
               UiError (KVDeleteCommand.msg_tree_failed key err)], 1%Z)
         | None =>
             ([before; KVDeleteTree key wo;
               UiInfo (KVDeleteCommand.msg_tree_ok key)], 0%Z)
         end)
    /\ (d_recurse fl = false ->
          exec (KVDeleteCommand.Run w args)
          = match kv_delete w client key wo with
            | Some err =>
                ([before; KVDelete key wo;
                  UiError (KVDeleteCommand.msg_delete_failed key err)], 1%Z)
            | None =>
                ([before; KVDelete key wo;
                  UiInfo (KVDeleteCommand.msg_deleted key)], 0%Z)
            end).
Proof.
  intros w args fl rest client Hp Hcas Hidx Hlen Hkey Hclient key wo before.
  rewrite (delete_run_parsed w args fl rest Hp).
  unfold KVDeleteCommand.run_parsed, KVDeleteCommand.dispatch.
  assert (Hk : (key_of rest =? "") && negb (d_recurse fl) = false).
  { destruct Hkey as [H | H].
    - apply String.eqb_neq in H. rewrite H. reflexivity.
    - rewrite H. apply andb_false_r. }
  subst key wo before.
  destruct rest as [| a [| b l]]; [ | | simpl in Hlen; lia ];
    unfold key_of in *; run_cmd; rewrite Hk, Hcas, Hidx, Hclient;
    simpl andb; cbv iota; split; intros Hrec; rewrite Hrec; cbv iota;
    match goal with
    | |- context [match ?r with Some _ => _ | None => _ end] => destruct r
    end; reflexivity.
Qed.

Lemma delete_without_cas_outcomes_witness :
  exec (KVDeleteCommand.Run (Sample.world (Sample.delete_flags false 0 true)) [])
    = ([NewClient (KVDeleteCommand.client_conf Sample.default_config
                     (Sample.delete_flags false 0 true));
        KVDeleteTree "" {| api.w_Datacenter := "dc1" |};
        UiInfo (KVDeleteCommand.msg_tree_ok "")], 0%Z).
Proof.
  apply (delete_without_cas_outcomes
           (Sample.world (Sample.delete_flags false 0 true)) []
           (Sample.delete_flags false 0 true) []
           {| api.client_config :=
                KVDeleteCommand.client_conf Sample.default_config
                  (Sample.delete_flags false 0 true) |}).
  - reflexivity.
  - reflexivity.
  - reflexivity.
  - simpl. lia.
  - right. reflexivity.
  - reflexivity.
  - reflexivity.
Defined.

(** X8: what a store call of delete carries.  A checked delete is made on a
    non-empty key with a nonzero version and never with -recurse; a plain
    delete is made on a non-empty key; only a recursive delete can have an
    empty prefix; and each call is made on the stripped argument, in the
    datacenter of the -datacenter flag. *)
Theorem delete_call_invariants :
  forall (w : World) (args : list string) (fl : DeleteFlags) (rest : list string),
    parse_delete w args = inr (fl, rest) ->
    Forall (fun e =>
              match e with
              | KVDeleteCAS kv wo =>
                  api.Key kv = key_of rest /\ api.Key kv <> ""
                  /\ api.ModifyIndex kv = d_modifyIndex fl
                  /\ api.ModifyIndex kv <> 0%N
                  /\ d_cas fl = true /\ d_recurse fl = false
                  /\ api.w_Datacenter wo = d_datacenter fl
              | KVDelete key wo =>
                  key = key_of rest /\ key <> ""
                  /\ d_cas fl = false /\ d_recurse fl = false
                  /\ api.w_Datacenter wo = d_datacenter fl
              | KVDeleteTree prefix wo =>
                  prefix = key_of rest
                  /\ d_cas fl = false /\ d_recurse fl = true
                  /\ api.w_Datacenter wo = d_datacenter fl
              | _ => True
              end)
      (trace_of (KVDeleteCommand.Run w args)).
Proof.
  intros w args fl rest Hp.
  rewrite (delete_run_parsed w args fl rest Hp).
  unfold KVDeleteCommand.run_parsed, KVDeleteCommand.dispatch, key_of.
  destruct rest as [| a [| b l]]; run_cmd;
    destruct (d_recurse fl) eqn:Hrec, (d_cas fl) eqn:Hcas;
    destruct (N.eqb_spec (d_modifyIndex fl) 0) as [Hidx | Hidx];
    try destruct (String.eqb_spec (stripLeadingSlash a) "") as [Hkey | Hkey];
    simpl andb; simpl negb; cbv iota;
    split_cases; repeat constructor; simpl; auto.
Qed.

Lemma delete_call_invariants_witness :
  Forall (fun e =>
            match e with
            | KVDeleteCAS kv wo =>
                api.Key kv = "foo" /\ api.Key kv <> ""
                /\ api.ModifyIndex kv = 5%N
                /\ api.ModifyIndex kv <> 0%N
                /\ true = true /\ false = false
                /\ api.w_Datacenter wo = "dc1"
            | KVDelete key wo =>
                key = "foo" /\ key <> ""
                /\ true = false /\ false = false
                /\ api.w_Datacenter wo = "dc1"
            | KVDeleteTree prefix wo =>
                prefix = "foo"
                /\ true = false /\ false = true
                /\ api.w_Datacenter wo = "dc1"
            | _ => True
            end)
    (trace_of (KVDeleteCommand.Run
                 (Sample.world (Sample.delete_flags true 5 false)) ["/foo"])).
Proof.
  apply (delete_call_invariants
           (Sample.world (Sample.delete_flags true 5 false)) ["/foo"]
           (Sample.delete_flags true 5 false) ["/foo"]).
  reflexivity.
Defined.

(** X9: when [api.NewClient] fails, each command reports the cause, exits 1,
    and neither calls the store nor opens a file. *)
Theorem connection_failure_exits_1 :
  forall (w : World) (args : list string) (conf : api.Config) (err : error),
    new_client w conf = inl err ->
    let failed (m : Cmd Empty_set) (msg : string) :=
      In (NewClient conf) (trace_of m) ->
      exists before : list Event,
        exec m = ((before ++ [NewClient conf; UiError msg])%list, 1%Z)
        /\ Forall (fun e => is_ui_error e = true) before in
    failed (KVExportCommand.Run w args) (KVExportCommand.msg_connect err)
    /\ failed (KVDeleteCommand.Run w args) (KVDeleteCommand.msg_connect err)
    /\ failed (SnapshotRestoreCommand.Run w args)
         (SnapshotRestoreCommand.msg_connect err).
Proof.
  intros w args conf err Herr failed. subst failed. cbv beta.
  repeat split; all_runs; simpl; intros Hin;
    repeat (destruct Hin as [Hin | Hin]; try discriminate Hin);
    try contradiction;
    injection Hin as <-;
    match goal with
    | H : new_client w _ = _ |- _ => rewrite Herr in H
    end; try discriminate;
    match goal with
    | H : inl _ = inl _ |- _ => injection H as <-
    end;
    first [ exists []; split; [ reflexivity | constructor ]
          | eexists [_]; split; [ reflexivity | repeat constructor ] ].
Qed.

Lemma connection_failure_exits_1_witness :
  exists before : list Event,
    exec (KVDeleteCommand.Run
            (Sample.world_offline (Sample.delete_flags false 5 false)) ["foo"])
    = ((before ++ [NewClient (KVDeleteCommand.client_conf Sample.default_config
                               (Sample.delete_flags false 5 false));
                   UiError (KVDeleteCommand.msg_connect "invalid address")])%list, 1%Z)
    /\ Forall (fun e => is_ui_error e = true) before.
Proof.
  refine (proj1 (proj2 (connection_failure_exits_1
                          (Sample.world_offline (Sample.delete_flags false 5 false))
                          ["foo"] _ "invalid address" _)) _).
  - reflexivity.
  - simpl. right. left. reflexivity.
Defined.

(** X10: a command calls the store, and restore opens the file, only with a
    client: before any store call or file opening of a run there is a
    [NewClient] whose configuration the world accepted. *)
Theorem no_call_without_client :
  forall (w : World) (args : list string),
    let guarded (m : Cmd Empty_set) :=
      forall (before after : list Event) (e : Event),
        trace_of m = (before ++ e :: after)%list ->
        is_store_call e = true \/ is_file_open e = true ->
        exists (conf : api.Config) (client : api.Client),
          In (NewClient conf) before /\ new_client w conf = inr client in
    guarded (KVExportCommand.Run w args)
    /\ guarded (KVDeleteCommand.Run w args)
    /\ guarded (SnapshotRestoreCommand.Run w args).
Proof.
  intros w args guarded. subst guarded. cbv beta.
  repeat split; all_runs; simpl; intros bef aft ev Ht Hev;
    repeat (destruct bef as [| ? bef];
            [ injection Ht as <- ; intros; subst;
              simpl in Hev; destruct Hev; discriminate
            | injection Ht as <- Ht;
              try (simpl; eauto 6; fail) ]);
    try discriminate Ht;
    try (destruct bef; discriminate Ht).
Qed.

Lemma no_call_without_client_witness :
  exists (conf : api.Config) (client : api.Client),
    In (NewClient conf)
       [NewClient (KVExportCommand.client_conf Sample.default_config Sample.export_flags)]
    /\ new_client (Sample.world (Sample.delete_flags false 0 false)) conf = inr client.
Proof.
  refine (proj1 (no_call_without_client
                   (Sample.world (Sample.delete_flags false 0 false)) ["a"])
            [NewClient (KVExportCommand.client_conf Sample.default_config
                          Sample.export_flags)]
            _ (KVList "a" {| api.q_Datacenter := "dc1"; api.AllowStale := false |})
            _ _).
  - reflexivity.
  - left. reflexivity.
Defined.

(** X11: when the list call fails, export reports the cause, exits 1 and
    prints no JSON. *)
Theorem export_query_failure_exits_1 :
  forall (w : World) (args : list string) (fl : ExportFlags) (rest : list string)
         (client : api.Client) (err : error),
    parse_export w args = inr (fl, rest) ->
    (length rest <= 1)%nat ->
    new_client w (KVExportCommand.client_conf (DefaultConfig w) fl) = inr client ->
    let q := {| api.q_Datacenter := e_datacenter fl; api.AllowStale := e_stale fl |} in
    kv_list w client (key_of rest) q = inl err ->
    exec (KVExportCommand.Run w args)
      = ([NewClient (KVExportCommand.client_conf (DefaultConfig w) fl);
          KVList (key_of rest) q;
          UiError (KVExportCommand.msg_query err)], 1%Z).
Proof.
  intros w args fl rest client err Hp Hlen Hclient q Hlist.
  unfold KVExportCommand.Run. rewrite Hp.
  unfold KVExportCommand.run_parsed. subst q. unfold key_of in *.
  destruct rest as [| a [| b l]]; [ | | simpl in Hlen; lia ];
    run_cmd; rewrite Hclient, Hlist; reflexivity.
Qed.

Lemma export_query_failure_exits_1_witness :
  exec (KVExportCommand.Run
          (Sample.world_failing (Sample.delete_flags false 0 false)) [])
    = ([NewClient (KVExportCommand.client_conf Sample.default_config Sample.export_flags);
        KVList "" {| api.q_Datacenter := "dc1"; api.AllowStale := false |};
        UiError (KVExportCommand.msg_query "Unexpected response code: 500")], 1%Z).
Proof.
  apply (export_query_failure_exits_1
           (Sample.world_failing (Sample.delete_flags false 0 false)) []
           Sample.export_flags []
           {| api.client_config :=
                KVExportCommand.client_conf Sample.default_config Sample.export_flags |}
           "Unexpected response code: 500").
  - reflexivity.
  - simpl. lia.
  - reflexivity.
  - reflexivity.
Defined.

(** X12: once the client is built and the file is open, restore makes the
    call on that file and exits 0 with its message when the store accepts
    the snapshot, and 1 with the cause when it does not. *)
Theorem restore_outcomes :
  forall (w : World) (args : list string) (fl : RestoreFlags) (file : string)
         (client : api.Client) (f : File),
    parse_restore w args = inr (fl, [file]) ->
    new_client w (SnapshotRestoreCommand.client_conf (DefaultConfig w) fl)
      = inr client ->
    os_open w file = inr f ->
    exec (SnapshotRestoreCommand.Run w args)
    = ([NewClient (SnapshotRestoreCommand.client_conf (DefaultConfig w) fl);
        OsOpen file;
        SnapshotRestore f;
        match snapshot_restore w client f with
        | Some err => UiError (SnapshotRestoreCommand.msg_restore err)
        | None => UiInfo SnapshotRestoreCommand.msg_restored
        end;
        FileClose f],
       match snapshot_restore w client f with
       | Some _ => 1%Z
       | None => 0%Z
       end).
Proof.
  intros w args fl file client f Hp Hclient Hopen.
  rewrite (restore_run_parsed w args fl [file] Hp).
  unfold SnapshotRestoreCommand.run_parsed.
  run_cmd. rewrite Hclient, Hopen.
  destruct (snapshot_restore w client f); reflexivity.
Qed.

Lemma restore_outcomes_witness :
  exec (SnapshotRestoreCommand.Run
          (Sample.world_failing (Sample.delete_flags false 0 false)) ["backup.snap"])
  = ([NewClient (SnapshotRestoreCommand.client_conf Sample.default_config
                   Sample.restore_flags);
      OsOpen "backup.snap";
      SnapshotRestore Sample.snapshot;
      UiError (SnapshotRestoreCommand.msg_restore "Unexpected response code: 500");
      FileClose Sample.snapshot], 1%Z).
Proof.
  apply (restore_outcomes
           (Sample.world_failing (Sample.delete_flags false 0 false)) ["backup.snap"]
           Sample.restore_flags "backup.snap"
           {| api.client_config :=
                SnapshotRestoreCommand.client_conf Sample.default_config
                  Sample.restore_flags |}
           Sample.snapshot).
  - reflexivity.
  - reflexivity.
  - reflexivity.
Defined.



(** ** The base64 text of a value *)

Lemma lor_shiftl_add (a b n : N) :
  (b < 2 ^ n)%N -> N.lor (N.shiftl a n) b = (a * 2 ^ n + b)%N.
Proof.
  intros Hb.
  assert (D : N.land (N.shiftl a n) b = 0%N).
  { apply N.bits_inj. intros m. rewrite N.land_spec, N.bits_0.
    destruct (N.lt_ge_cases m n) as [Hm | Hm].
    - rewrite N.shiftl_spec_low by exact Hm. reflexivity.
    - rewrite <- (N.mod_small b (2 ^ n)) by exact Hb.
      rewrite N.mod_pow2_bits_high by exact Hm. apply andb_false_r. }
  rewrite <- N.lxor_lor, <- N.add_nocarry_lxor by exact D.
  rewrite N.shiftl_mul_pow2. reflexivity.
Qed.

(** The 24-bit value of a group of three bytes. *)
Lemma group_value (a b c : N) :
  (a < 256)%N -> (b < 256)%N -> (c < 256)%N ->
  N.lor (N.shiftl a 16) (N.lor (N.shiftl b 8) c) = (a * 65536 + b * 256 + c)%N.
Proof.
  intros Ha Hb Hc.
  rewrite (lor_shiftl_add b c 8) by exact Hc.
  rewrite lor_shiftl_add.
  - change (2 ^ 16)%N with 65536%N. change (2 ^ 8)%N with 256%N. lia.
  - change (2 ^ 16)%N with 65536%N. change (2 ^ 8)%N with 256%N. lia.
Qed.

Lemma sextet_index (val shift : N) :
  base64.sextet val shift = base64.encode ((val / 2 ^ shift) mod 64).
Proof.
  unfold base64.sextet. rewrite N.shiftr_div_pow2.
  change 63%N with (N.ones 6). rewrite N.land_ones. reflexivity.
Qed.

Lemma encode_inj (i j : N) :
  (i < 64)%N -> (j < 64)%N -> base64.encode i = base64.encode j -> i = j.
Proof.
  intros Hi Hj H.
  assert (A : forallb (fun k =>
                forallb (fun l =>
                  negb (Ascii.eqb (base64.encode (N.of_nat k)) (base64.encode (N.of_nat l)))
                  || Nat.eqb k l) (seq 0 64)) (seq 0 64) = true) by (vm_compute; reflexivity).
  rewrite forallb_forall in A.
  specialize (A (N.to_nat i)). rewrite forallb_forall in A.
  assert (Hin : forall k, (k < 64)%N -> In (N.to_nat k) (seq 0 64))
    by (intros k Hk; apply in_seq; lia).
  specialize (A (Hin i Hi) (N.to_nat j) (Hin j Hj)).
  rewrite !N2Nat.id, H, Ascii.eqb_refl in A. simpl in A.
  apply Nat.eqb_eq in A. lia.
Qed.

Lemma encode_not_pad (i : N) : (i < 64)%N -> base64.encode i <> base64.padChar.
Proof.
  intros Hi H.
  assert (A : forallb (fun k =>
                negb (Ascii.eqb (base64.encode (N.of_nat k)) base64.padChar))
                (seq 0 64) = true) by (vm_compute; reflexivity).
  rewrite forallb_forall in A.
  specialize (A (N.to_nat i)). rewrite N2Nat.id, H, Ascii.eqb_refl in A.
  discriminate A. apply in_seq. lia.
Qed.

Lemma sextet_not_pad (val shift : N) : base64.sextet val shift <> base64.padChar.
Proof.
  rewrite sextet_index. apply encode_not_pad. apply N.mod_lt. discriminate.
Qed.

Lemma sextet_inj (val val' shift : N) :
  base64.sextet val shift = base64.sextet val' shift ->
  ((val / 2 ^ shift) mod 64 = (val' / 2 ^ shift) mod 64)%N.
Proof.
  rewrite !sextet_index. apply encode_inj; apply N.mod_lt; discriminate.
Qed.

(** The four base-64 digits of a 24-bit value. *)
Lemma digits_of_value (d3 d2 d1 d0 : N) :
  (d3 < 64)%N -> (d2 < 64)%N -> (d1 < 64)%N -> (d0 < 64)%N ->
  let v := (d3 * 262144 + d2 * 4096 + d1 * 64 + d0)%N in
  ((v / 2 ^ 18) mod 64 = d3 /\ (v / 2 ^ 12) mod 64 = d2
   /\ (v / 2 ^ 6) mod 64 = d1 /\ (v / 2 ^ 0) mod 64 = d0)%N.
Proof.
  intros H3 H2 H1 H0 v.
  change (2 ^ 18)%N with 262144%N. change (2 ^ 12)%N with 4096%N.
  change (2 ^ 6)%N with 64%N. change (2 ^ 0)%N with 1%N.
  assert (Q18 : (v / 262144 = d3)%N).
  { symmetry. apply (N.div_unique v 262144 d3 (d2 * 4096 + d1 * 64 + d0)); subst v; lia. }
  assert (Q12 : (v / 4096 = d3 * 64 + d2)%N).
  { symmetry. apply (N.div_unique v 4096 _ (d1 * 64 + d0)); subst v; lia. }
  assert (Q6 : (v / 64 = d3 * 4096 + d2 * 64 + d1)%N).
  { symmetry. apply (N.div_unique v 64 _ d0); subst v; lia. }
  rewrite Q18, Q12, Q6, N.div_1_r.
  repeat split.
  - apply N.mod_small. exact H3.
  - symmetry. apply (N.mod_unique _ 64 d3 d2); lia.
  - symmetry. apply (N.mod_unique _ 64 (d3 * 64 + d2) d1); lia.
  - symmetry. apply (N.mod_unique _ 64 (d3 * 4096 + d2 * 64 + d1) d0); subst v; lia.
Qed.

(** A byte split at bit [k]: the bits above and the bits below. *)
Lemma byte_split (a k : N) :
  (k <> 0)%N -> (a = k * (a / k) + a mod k /\ a mod k < k)%N.
Proof.
  intros Hk. split; [ apply N.div_mod; exact Hk | apply N.mod_lt; exact Hk ].
Qed.

(** The sextets of a group decide its bytes. *)
Lemma group_inj (a b c a' b' c' : N) :
  (a < 256)%N -> (b < 256)%N -> (c < 256)%N ->
  (a' < 256)%N -> (b' < 256)%N -> (c' < 256)%N ->
  let val := (a * 65536 + b * 256 + c)%N in
  let val' := (a' * 65536 + b' * 256 + c')%N in
  ((val / 2 ^ 18) mod 64 = (val' / 2 ^ 18) mod 64)%N ->
  ((val / 2 ^ 12) mod 64 = (val' / 2 ^ 12) mod 64)%N ->
  ((val / 2 ^ 6) mod 64 = (val' / 2 ^ 6) mod 64)%N ->
  ((val / 2 ^ 0) mod 64 = (val' / 2 ^ 0) mod 64)%N ->
  a = a' /\ b = b' /\ c = c'.
Proof.
  intros Ha Hb Hc Ha' Hb' Hc' val val'.
  destruct (byte_split a 4) as [Ea La]; [ discriminate | ].
  destruct (byte_split b 16) as [Eb Lb]; [ discriminate | ].
  destruct (byte_split c 64) as [Ec Lc]; [ discriminate | ].
  destruct (byte_split a' 4) as [Ea' La']; [ discriminate | ].
  destruct (byte_split b' 16) as [Eb' Lb']; [ discriminate | ].
  destruct (byte_split c' 64) as [Ec' Lc']; [ discriminate | ].
  revert Ea La Eb Lb Ec Lc Ea' La' Eb' Lb' Ec' Lc'.
  generalize (a / 4)%N (a mod 4)%N (b / 16)%N (b mod 16)%N (c / 64)%N (c mod 64)%N.
  intros a1 a0 b1 b0 c1 c0.
  generalize (a' / 4)%N (a' mod 4)%N (b' / 16)%N (b' mod 16)%N (c' / 64)%N (c' mod 64)%N.
  intros a1' a0' b1' b0' c1' c0'.
  intros Ea La Eb Lb Ec Lc Ea' La' Eb' Lb' Ec' Lc'.
  assert (V : val = (a1 * 262144 + (a0 * 16 + b1) * 4096 + (b0 * 4 + c1) * 64 + c0)%N)
    by (subst val; lia).
  assert (V' : val' = (a1' * 262144 + (a0' * 16 + b1') * 4096
                       + (b0' * 4 + c1') * 64 + c0')%N)
    by (subst val'; lia).
  rewrite V, V'.
  destruct (digits_of_value a1 (a0 * 16 + b1) (b0 * 4 + c1) c0)
    as [D3 [D2 [D1 D0]]]; [ lia | lia | lia | lia | ].
  destruct (digits_of_value a1' (a0' * 16 + b1') (b0' * 4 + c1') c0')
    as [D3' [D2' [D1' D0']]]; [ lia | lia | lia | lia | ].
  rewrite D3, D2, D1, D0, D3', D2', D1', D0'.
  intros. lia.
Qed.

Lemma ascii_of_N_inj (x y : ascii) : N_of_ascii x = N_of_ascii y -> x = y.
Proof.
  intros H. rewrite <- (ascii_N_embedding x), <- (ascii_N_embedding y), H.
  reflexivity.
Qed.

(** Three bytes, or the one or two bytes of a last group with zeros in the
    places left, are decided by the sextets of their value. *)
Lemma group_sextets_inj (b0 b1 b2 c0 c1 c2 : ascii) :
  let v (x y z : ascii) :=
    N.lor (N.shiftl (N_of_ascii x) 16)
      (N.lor (N.shiftl (N_of_ascii y) 8) (N_of_ascii z)) in
  base64.sextet (v b0 b1 b2) 18 = base64.sextet (v c0 c1 c2) 18 ->
  base64.sextet (v b0 b1 b2) 12 = base64.sextet (v c0 c1 c2) 12 ->
  base64.sextet (v b0 b1 b2) 6 = base64.sextet (v c0 c1 c2) 6 ->
  base64.sextet (v b0 b1 b2) 0 = base64.sextet (v c0 c1 c2) 0 ->
  b0 = c0 /\ b1 = c1 /\ b2 = c2.
Proof.
  intros v H18 H12 H6 H0. subst v. cbv beta in *.
  apply sextet_inj in H18, H12, H6, H0.
  rewrite !group_value in H18, H12, H6, H0 by apply N_ascii_bounded.
  destruct (group_inj _ _ _ _ _ _
              (N_ascii_bounded b0) (N_ascii_bounded b1) (N_ascii_bounded b2)
              (N_ascii_bounded c0) (N_ascii_bounded c1) (N_ascii_bounded c2)
              H18 H12 H6 H0) as [E0 [E1 E2]].
  repeat split; apply ascii_of_N_inj; assumption.
Qed.

Lemma low_digit_zero (a b : N) :
  (((a * 65536 + b * 256 + 0) / 2 ^ 0) mod 64 = 0)%N.
Proof.
  change (2 ^ 0)%N with 1%N. rewrite N.div_1_r.
  symmetry. apply (N.mod_unique _ 64 (a * 1024 + b * 4) 0); lia.
Qed.

Lemma second_digit_zero (a : N) :
  (((a * 65536 + 0 * 256 + 0) / 2 ^ 6) mod 64 = 0)%N.
Proof.
  change (2 ^ 6)%N with 64%N.
  replace ((a * 65536 + 0 * 256 + 0) / 64)%N with (a * 1024)%N.
  - symmetry. apply (N.mod_unique _ 64 (a * 16) 0); lia.
  - apply (N.div_unique _ 64 _ 0); lia.
Qed.

Lemma one_byte_value (b : ascii) :
  N.shiftl (N_of_ascii b) 16
  = N.lor (N.shiftl (N_of_ascii b) 16)
      (N.lor (N.shiftl (N_of_ascii Ascii.zero) 8) (N_of_ascii Ascii.zero)).
Proof. symmetry. apply N.lor_0_r. Qed.

Lemma two_byte_value (b0 b1 : ascii) :
  N.lor (N.shiftl (N_of_ascii b0) 16) (N.shiftl (N_of_ascii b1) 8)
  = N.lor (N.shiftl (N_of_ascii b0) 16)
      (N.lor (N.shiftl (N_of_ascii b1) 8) (N_of_ascii Ascii.zero)).
Proof. f_equal. symmetry. apply N.lor_0_r. Qed.

Lemma zero_bounded : (N_of_ascii Ascii.zero < 256)%N.
Proof. apply N_ascii_bounded. Qed.

Lemma two_byte_sextets_inj (b0 b1 c0 c1 : ascii) :
  let v (x y : ascii) :=
    N.lor (N.shiftl (N_of_ascii x) 16) (N.shiftl (N_of_ascii y) 8) in
  base64.sextet (v b0 b1) 18 = base64.sextet (v c0 c1) 18 ->
  base64.sextet (v b0 b1) 12 = base64.sextet (v c0 c1) 12 ->
  base64.sextet (v b0 b1) 6 = base64.sextet (v c0 c1) 6 ->
  b0 = c0 /\ b1 = c1.
Proof.
  intros v H18 H12 H6. subst v. cbv beta in *.
  rewrite !two_byte_value in H18, H12, H6.
  destruct (group_sextets_inj b0 b1 Ascii.zero c0 c1 Ascii.zero H18 H12 H6)
    as [E0 [E1 _]]; [ | split; assumption ].
  rewrite !sextet_index, !group_value by apply N_ascii_bounded.
  change (N_of_ascii Ascii.zero) with 0%N.
  rewrite !low_digit_zero. reflexivity.
Qed.

Lemma one_byte_sextets_inj (b c : ascii) :
  base64.sextet (N.shiftl (N_of_ascii b) 16) 18
    = base64.sextet (N.shiftl (N_of_ascii c) 16) 18 ->
  base64.sextet (N.shiftl (N_of_ascii b) 16) 12
    = base64.sextet (N.shiftl (N_of_ascii c) 16) 12 ->
  b = c.
Proof.
  intros H18 H12.
  rewrite (one_byte_value b), (one_byte_value c) in H18, H12.
  destruct (group_sextets_inj b Ascii.zero Ascii.zero c Ascii.zero Ascii.zero
              H18 H12) as [E _]; [ | | exact E ];
    rewrite !sextet_index, !group_value by apply N_ascii_bounded;
    change (N_of_ascii Ascii.zero) with 0%N.
  - rewrite !second_digit_zero. reflexivity.
  - rewrite !low_digit_zero. reflexivity.
Qed.

Ltac string_injection :=
  repeat match goal with
    | H : String _ _ = String _ _ |- _ => injection H as ? ?
    end.

(** Values with the same base64 text are the same value. *)
Lemma EncodeToString_inj (s t : string) :
  base64.EncodeToString s = base64.EncodeToString t -> s = t.
Proof.
  assert (A : forall n s t, (String.length s <= n)%nat ->
                base64.EncodeToString s = base64.EncodeToString t -> s = t).
  { clear s t. induction n as [| n IH]; intros s t Hs H.
    - destruct s; [ | simpl in Hs; lia ].
      destruct t as [| c0 [| c1 [| c2 t]]]; [ reflexivity | | | ];
        cbn [base64.EncodeToString] in H; discriminate H.
    - destruct s as [| b0 [| b1 [| b2 s]]];
        destruct t as [| c0 [| c1 [| c2 t]]];
        cbn [base64.EncodeToString] in H; cbv zeta in H;
        try reflexivity; try discriminate H;
        string_injection;
        try match goal with
          | E : base64.sextet _ _ = base64.padChar |- _ =>
              elim (sextet_not_pad _ _ E)
          | E : base64.padChar = base64.sextet _ _ |- _ =>
              elim (sextet_not_pad _ _ (eq_sym E))
          end.
      + match goal with
        | H18 : base64.sextet _ 18 = _, H12 : base64.sextet _ 12 = _ |- _ =>
            rewrite (one_byte_sextets_inj b0 c0 H18 H12)
        end. reflexivity.
      + match goal with
        | H18 : base64.sextet _ 18 = _, H12 : base64.sextet _ 12 = _,
          H6 : base64.sextet _ 6 = _ |- _ =>
            destruct (two_byte_sextets_inj b0 b1 c0 c1 H18 H12 H6) as [-> ->]
        end. reflexivity.
      + match goal with
        | H18 : base64.sextet _ 18 = _, H12 : base64.sextet _ 12 = _,
          H6 : base64.sextet _ 6 = _, H0 : base64.sextet _ 0 = _,
          Hrest : base64.EncodeToString s = base64.EncodeToString t |- _ =>
            destruct (group_sextets_inj b0 b1 b2 c0 c1 c2 H18 H12 H6 H0)
              as [-> [-> ->]];
            rewrite (IH s t); [ reflexivity | | exact Hrest ]
        end.
        cbn [String.length] in Hs. lia. }
  exact (A (String.length s) s t (le_n _)).
Qed.

Lemma EncodeToString_length (src : string) :
  String.length (base64.EncodeToString src)
  = (4 * ((String.length src + 2) / 3))%nat.
Proof.
  assert (A : forall n s, (String.length s <= n)%nat ->
                String.length (base64.EncodeToString s)
                = (4 * ((String.length s + 2) / 3))%nat).
  { induction n as [| n IH]; intros s Hs.
    - destruct s; [ reflexivity | simpl in Hs; lia ].
    - destruct s as [| b0 [| b1 [| b2 rest]]];
        cbn [base64.EncodeToString String.length]; try reflexivity.
      rewrite IH by (cbn [String.length] in Hs; lia).
      replace (S (S (S (String.length rest))) + 2)%nat
        with (1 * 3 + (String.length rest + 2))%nat by lia.
      rewrite Nat.div_add_l by discriminate. lia. }
  exact (A (String.length src) src (le_n _)).
Qed.

(** X14: export keeps the key, the flags and the value of a pair and
    nothing else: two pairs give the same exported entry exactly when they
    agree on these three fields, whatever their versions are. *)
Theorem export_entry_lossless :
  forall p p' : api.KVPair,
    toExportEntry p = toExportEntry p'
    <-> api.Key p = api.Key p' /\ api.Flags p = api.Flags p'
        /\ api.Value p = api.Value p'.
Proof.
  intros p p'. unfold toExportEntry. split.
  - intros H. injection H as HK HF HV.
    repeat split; try assumption. apply EncodeToString_inj. exact HV.
  - intros [-> [-> ->]]. reflexivity.
Qed.

(** X15: the exported value is four characters for every three bytes of
    the value, the last group padded, and holds only characters that JSON
    prints as they are. *)
Theorem export_value_text_shape :
  forall p : api.KVPair,
    String.length (Value (toExportEntry p))
      = (4 * ((String.length (api.Value p) + 2) / 3))%nat
    /\ all_plain (Value (toExportEntry p)) = true.
Proof.
  intros p. split.
  - apply EncodeToString_length.
  - apply EncodeToString_plain.
Qed.

(** X16: with two or more positional arguments, delete reports the count
    and exits 1 whatever the flags are, without building a client or calling
    the store. *)
Theorem delete_too_many_arguments_exits_1 :
  forall (w : World) (args : list string) (fl : DeleteFlags) (rest : list string),
    parse_delete w args = inr (fl, rest) ->
    (2 <= length rest)%nat ->
    exec (KVDeleteCommand.Run w args)
      = ([UiError (KVDeleteCommand.msg_too_many (length rest))], 1%Z).
Proof.
  intros w args fl rest Hp Hlen.
  rewrite (delete_run_parsed w args fl rest Hp).
  unfold KVDeleteCommand.run_parsed.
  destruct rest as [| a [| b l]]; simpl in Hlen; try lia.
  reflexivity.
Qed.

Lemma delete_too_many_arguments_exits_1_witness :
  exec (KVDeleteCommand.Run (Sample.world (Sample.delete_flags false 0 true))
          ["foo"; "bar"])
    = ([UiError (KVDeleteCommand.msg_too_many 2)], 1%Z).
Proof.
  apply (delete_too_many_arguments_exits_1
           (Sample.world (Sample.delete_flags false 0 true)) ["foo"; "bar"]
           (Sample.delete_flags false 0 true) ["foo"; "bar"]).
  - reflexivity.
  - simpl. lia.
Defined.

(** The count is printed in decimal. *)
Example too_many_arguments_text :
  KVDeleteCommand.msg_too_many 12 = "Too many arguments (expected 1, got 12)".
Proof. reflexivity. Qed.

(** ** The text export prints, for every list of pairs *)










(** ** The -token flag *)

(** C10: a run of export that has at most one argument builds its client
    once, with the -token flag as token whenever the flag is non-empty and
    the token of the default configuration otherwise.  A run of delete that
    passes its checks builds its client once, with the -token flag as token
    only when the default configuration has no token.  So with a token on
    both sides export connects with the flag and delete with the default;
    and no run of either command builds a client with another token. *)
Theorem token_precedence_export_vs_delete :
  (forall (w : World) (args : list string) (fl : ExportFlags) (rest : list string),
      parse_export w args = inr (fl, rest) ->
      (length rest <= 1)%nat ->
      exists conf : api.Config,
        client_constructions (trace_of (KVExportCommand.Run w args)) = [NewClient conf]
        /\ api.Token conf
           = if e_token fl =? "" then api.Token (DefaultConfig w) else e_token fl)
  /\ (forall (w : World) (args : list string) (fl : DeleteFlags) (rest : list string),
        parse_delete w args = inr (fl, rest) ->
        (length rest <= 1)%nat ->
        key_of rest <> "" \/ d_recurse fl = true ->
        (d_cas fl = true -> d_modifyIndex fl <> 0%N /\ d_recurse fl = false) ->
        exists conf : api.Config,
          client_constructions (trace_of (KVDeleteCommand.Run w args)) = [NewClient conf]
          /\ api.Token conf
             = if api.Token (DefaultConfig w) =? "" then d_token fl
               else api.Token (DefaultConfig w))
  /\ (forall (w : World) (args : list string) (fl : ExportFlags) (rest : list string)
             (conf : api.Config),
        parse_export w args = inr (fl, rest) ->
        In (NewClient conf) (trace_of (KVExportCommand.Run w args)) ->
        api.Token conf
          = if e_token fl =? "" then api.Token (DefaultConfig w) else e_token fl)
  /\ (forall (w : World) (args : list string) (fl : DeleteFlags) (rest : list string)
             (conf : api.Config),
        parse_delete w args = inr (fl, rest) ->
        In (NewClient conf) (trace_of (KVDeleteCommand.Run w args)) ->
        api.Token conf
          = if api.Token (DefaultConfig w) =? "" then d_token fl
            else api.Token (DefaultConfig w))
  /\ (forall (w : World) (args : list string) (efl : ExportFlags) (dfl : DeleteFlags)
             (erest drest : list string),
        parse_export w args = inr (efl, erest) ->
        parse_delete w args = inr (dfl, drest) ->
        (length erest <= 1)%nat ->
        (length drest <= 1)%nat ->
        key_of drest <> "" \/ d_recurse dfl = true ->
        (d_cas dfl = true -> d_modifyIndex dfl <> 0%N /\ d_recurse dfl = false) ->
        api.Token (DefaultConfig w) <> "" ->
        e_token efl <> "" ->
        exists econf dconf : api.Config,
          client_constructions (trace_of (KVExportCommand.Run w args)) = [NewClient econf]
          /\ client_constructions (trace_of (KVDeleteCommand.Run w args)) = [NewClient dconf]
          /\ api.Token econf = e_token efl
          /\ api.Token dconf = api.Token (DefaultConfig w)).
Proof.
  assert (E : forall w args fl rest,
             parse_export w args = inr (fl, rest) ->
             (length rest <= 1)%nat ->
             client_constructions (trace_of (KVExportCommand.Run w args))
             = [NewClient (KVExportCommand.client_conf (DefaultConfig w) fl)]).
  { intros w args fl rest Hp Hlen.
    unfold KVExportCommand.Run. rewrite Hp.
    unfold KVExportCommand.run_parsed, KVExportCommand.MarshalIndent.
    destruct rest as [| a [| b l]]; [ | | simpl in Hlen; lia ];
      run_cmd; split_cases; no_export_panic; reflexivity. }
  assert (D : forall w args fl rest,
             parse_delete w args = inr (fl, rest) ->
             (length rest <= 1)%nat ->
             key_of rest <> "" \/ d_recurse fl = true ->
             (d_cas fl = true -> d_modifyIndex fl <> 0%N /\ d_recurse fl = false) ->
             client_constructions (trace_of (KVDeleteCommand.Run w args))
             = [NewClient (KVDeleteCommand.client_conf (DefaultConfig w) fl)]).
  { intros w args fl rest Hp Hlen Hkey Hcas.
    rewrite (delete_run_parsed w args fl rest Hp).
    unfold KVDeleteCommand.run_parsed, KVDeleteCommand.dispatch.
    assert (Hk : (key_of rest =? "") && negb (d_recurse fl) = false).
    { destruct Hkey as [H | H].
      - apply String.eqb_neq in H. rewrite H. reflexivity.
      - rewrite H. apply andb_false_r. }
    assert (Hc : d_cas fl && (d_modifyIndex fl =? 0)%N = false
                 /\ d_recurse fl && d_cas fl = false).
    { destruct (d_cas fl).
      - destruct (Hcas eq_refl) as [Hi Hr]. apply N.eqb_neq in Hi.
        rewrite Hi, Hr. split; reflexivity.
      - rewrite andb_false_r. split; reflexivity. }
    destruct Hc as [Hc1 Hc2].
    destruct rest as [| a [| b l]]; [ | | simpl in Hlen; lia ];
      unfold key_of in Hk; run_cmd; rewrite Hk, Hc1, Hc2; cbv iota;
      split_cases; reflexivity. }
  assert (TE : forall dflt fl,
             api.Token (KVExportCommand.client_conf dflt fl)
             = if e_token fl =? "" then api.Token dflt else e_token fl).
  { intros dflt fl. unfold KVExportCommand.client_conf.
    destruct (e_token fl =? ""); reflexivity. }
  assert (TD : forall dflt fl,
             api.Token (KVDeleteCommand.client_conf dflt fl)
             = if api.Token dflt =? "" then d_token fl else api.Token dflt).
  { intros dflt fl. unfold KVDeleteCommand.client_conf. simpl.
    destruct (api.Token dflt =? ""); reflexivity. }
  repeat apply conj.
  - intros w args fl rest Hp Hlen.
    exists (KVExportCommand.client_conf (DefaultConfig w) fl).
    split; [ exact (E w args fl rest Hp Hlen) | apply TE ].
  - intros w args fl rest Hp Hlen Hkey Hcas.
    exists (KVDeleteCommand.client_conf (DefaultConfig w) fl).
    split; [ exact (D w args fl rest Hp Hlen Hkey Hcas) | apply TD ].
  - intros w args fl rest conf Hp Hin.
    assert (Ec : conf = KVExportCommand.client_conf (DefaultConfig w) fl).
    { revert Hin. unfold KVExportCommand.Run. rewrite Hp.
      unfold KVExportCommand.run_parsed, KVExportCommand.MarshalIndent.
      run_cmd. split_cases; simpl; intuition (try discriminate; congruence). }
    subst conf. apply TE.
  - intros w args fl rest conf Hp Hin.
    assert (Ec : conf = KVDeleteCommand.client_conf (DefaultConfig w) fl).
    { revert Hin. rewrite (delete_run_parsed w args fl rest Hp).
      unfold KVDeleteCommand.run_parsed, KVDeleteCommand.dispatch.
      run_cmd. split_cases; simpl; intuition (try discriminate; congruence). }
    subst conf. apply TD.
  - intros w args efl dfl erest drest Hpe Hpd Hle Hld Hkey Hcas Hd He.
    exists (KVExportCommand.client_conf (DefaultConfig w) efl),
           (KVDeleteCommand.client_conf (DefaultConfig w) dfl).
    rewrite TE, TD. apply String.eqb_neq in Hd, He. rewrite Hd, He.
    repeat split.
    + exact (E w args efl erest Hpe Hle).
    + exact (D w args dfl drest Hpd Hld Hkey Hcas).
Qed.

Lemma token_precedence_export_vs_delete_witness :
  exists econf dconf : api.Config,
    client_constructions
      (trace_of (KVExportCommand.Run
                   (Sample.world (Sample.delete_flags false 0 false)) ["a"]))
    = [NewClient econf]
    /\ client_constructions
         (trace_of (KVDeleteCommand.Run
                      (Sample.world (Sample.delete_flags false 0 false)) ["a"]))
       = [NewClient dconf]
    /\ api.Token econf = "from-flag"
    /\ api.Token dconf = "from-env".
Proof.
  apply (proj2 (proj2 (proj2 (proj2 token_precedence_export_vs_delete)))
           (Sample.world (Sample.delete_flags false 0 false)) ["a"]
           Sample.export_flags (Sample.delete_flags false 0 false) ["a"] ["a"]).
  - reflexivity.
  - reflexivity.
  - simpl. lia.
  - simpl. lia.
  - left. discriminate.
  - discriminate.
  - discriminate.
  - discriminate.
Defined.
